(** * Echo Chamber: the sequence detection engine

    A shallow embedding of [src/echo-chamber/src/sequence-detector.js]
    (class [SequenceDetector]) and the properties of its specification.

    JavaScript numbers are IEEE 754 binary64 values, so they are embedded
    as Rocq's primitive floats: [+], [-], [*], [/], [Math.abs], [<] and
    [===] are the binary64 operations the engine executes, including
    rounding, overflow to [infinity], signed zero and [nan]. *)

From Stdlib Require Import String DecimalString.
From Stdlib Require Import Floats Uint63 ZArith Bool Lia PeanoNat List.
Import ListNotations.

Set Warnings "-inexact-float,-register-all".

(* ================================================================= *)
(** ** JavaScript values and numbers *)

(** What a caller can hand to [analyze]: any JavaScript value.  Objects
    other than arrays carry no structure the engine looks at.  An array
    may be sparse: [Hole] stands for an empty slot and occurs only as an
    element of [Arr]; the slot counts in the length of the array, reading
    it gives [undefined], and the array methods [some], [every],
    [forEach] and [reduce] skip it. *)
Inductive value : Type :=
| Num (x : float)
| Str (s : string)
| Boolean (b : bool)
| Null
| Undefined
| Arr (elems : list value)
| Obj
| Hole.

(** The callback [num => typeof num !== 'number' || isNaN(num)] as
    [sequence.some] applies it to the slots of an array: the right
    operand is only evaluated on numbers, where [isNaN] is the binary64
    test, and the callback is not called on an empty slot. *)
Definition notValidNumber (num : value) : bool :=
  match num with
  | Num x => is_nan x
  | Hole => false
  | _ => true
  end.

(** The array spread [[...sequence]] of an array value: the copy is
    dense, an empty slot becomes [undefined]. *)
Definition spread (sequence : value) : list value :=
  match sequence with
  | Arr elems =>
      map (fun e => match e with Hole => Undefined | _ => e end) elems
  | _ => []
  end.

(** [sequence[i]] as the arithmetic of the detectors reads it, on an
    array that passed [notValidNumber]: the number in the slot, and [NaN]
    for the [undefined] of an empty slot. *)
Definition toNumber (num : value) : float :=
  match num with Num x => x | _ => nan end.

Module Number.

(** The literal [0.0001]: the binary64 value nearest to 1e-4. *)
Definition tolerance : float := 0.0001%float.

(** An array length used as a number ([xs.length] as a divisor).
    Exact below 2^53; array lengths stay below 2^32. *)
Definition ofLength (n : nat) : float :=
  PrimFloat.of_uint63 (Uint63.of_Z (Z.of_nat n)).

(** [xs[i]] on an array of numbers.  Reading outside the array gives
    [undefined], which every arithmetic use in the engine turns into
    [NaN]; the engine only reads inside the array on inputs that
    passed validation. *)
Definition at_ (xs : list float) (i : nat) : float := nth i xs nan.

(** [xs[xs.length - 1]] *)
Definition lastOf (xs : list float) : float := at_ xs (length xs - 1).

(** [xs.reduce((a, b) => a + b, 0)] *)
Definition sum (xs : list float) : float :=
  fold_left PrimFloat.add xs 0%float.

(** [xs.reduce((a, b) => a + b, 0) / xs.length] *)
Definition average (xs : list float) : float :=
  (sum xs / ofLength (length xs))%float.

(** [xs.every(d => Math.abs(d - avg) < 0.0001)] *)
Definition isConstant (xs : list float) (avg : float) : bool :=
  forallb (fun d => (abs (d - avg) <? tolerance)%float) xs.

(** The loop [for (i = 1; i < xs.length; i++) out.push(f(xs[i], xs[i-1]))]:
    the index pairs it visits, in order. *)
Definition adjacent (xs : list float) : list (float * float) :=
  map (fun i => (at_ xs i, at_ xs (i - 1))) (seq 1 (length xs - 1)).

(** [xs[i] - xs[i-1]] for [i = 1 .. xs.length - 1] *)
Definition differences (xs : list float) : list float :=
  map (fun p => (fst p - snd p)%float) (adjacent xs).

End Number.
Import Number.

(* ================================================================= *)
(** ** Detection results *)

(** The [type] strings of a result. *)
Inductive patternType : Type :=
| arithmetic | geometric | polynomial | unknown | invalid.

(** The [parameters] object, one shape per detector. *)
Inductive params : Type :=
| ArithmeticParams (difference firstTerm : float)
| GeometricParams (ratio firstTerm : float)
| PolynomialParams (degree : nat) (differences : list (list float)).

Module Result.

(** A result object.  Every property is optional because the engine
    builds objects of several shapes ([{ isValid: false }], the two
    failure objects, a detector's success object, and the multi-step
    object that spreads an analysis and adds two properties).  The
    [formula] property, a display string that interpolates numbers, is
    not modelled.  The [sequence] property echoes the analysed array; it
    is recorded as the numbers the detectors read from it, so an empty
    slot of a sparse array appears as the [NaN] it reads as. *)
Record result : Type := mkResult {
  success : option bool;
  isValid : option bool;
  type : option patternType;
  error : option string;
  pattern : option string;
  parameters : option params;
  prediction : option float;
  confidence : option float;
  sequence : option (list float);
  predictions : option (list value);
  extendedSequence : option (list value)
}.

End Result.
Export Result.

(** [{ isValid: false }] *)
Definition declined : result :=
  mkResult None (Some false) None None None None None None None None None.

(** [{ success: false, error: msg, type: 'invalid' }] *)
Definition invalidResult (msg : string) : result :=
  mkResult (Some false) None (Some invalid) (Some msg)
           None None None None None None None.

(** A detector's success object. *)
Definition detected (t : patternType) (name : string) (p : params)
    (next conf : float) (sequence : list float) : result :=
  mkResult (Some true) (Some true) (Some t) None (Some name) (Some p)
           (Some next) (Some conf) (Some sequence) None None.

(** Truthiness of an optional boolean property ([undefined] is falsy). *)
Definition truthy (b : option bool) : bool :=
  match b with Some true => true | _ => false end.

(* ================================================================= *)
(** ** Execution traces

    Two claims of the specification speak about what the engine does
    rather than what it returns (which detectors run, which divisions
    are performed).  The engine is therefore run in a writer monad that
    records these two kinds of step. *)

Inductive detector : Type := Arithmetic | Geometric | Polynomial.

Inductive event : Type :=
| Run (d : detector)                    (* a detector is entered *)
| Divide (dividend divisor : float).    (* [sequence[i] / sequence[i-1]] *)

Definition Traced (A : Type) : Type := (list event * A)%type.

Definition ret {A} (a : A) : Traced A := ([], a).

Definition bind {A B} (m : Traced A) (k : A -> Traced B) : Traced B :=
  let (t1, a) := m in
  let (t2, b) := k a in
  (t1 ++ t2, b).

Definition tell (e : event) : Traced unit := ([e], tt).

Definition trace {A} (m : Traced A) : list event := fst m.
Definition returned {A} (m : Traced A) : A := snd m.

Notation "x <- m ;; k" := (bind m (fun x => k))
  (at level 61, m at next level, right associativity).
Notation "m ;;; k" := (bind m (fun _ => k))
  (at level 61, right associativity).

(* ================================================================= *)
(** ** The engine: [class SequenceDetector] *)

Module SequenceDetector.

Open Scope float_scope.

(** *** [detectArithmetic] *)
Definition detectArithmetic (sequence : list float) : Traced result :=
  tell (Run Arithmetic) ;;;
  let differences := differences sequence in
  let avgDifference := average differences in
  let isConstant := isConstant differences avgDifference in
  if isConstant then
    let next := lastOf sequence + avgDifference in
    ret (detected arithmetic "Arithmetic Progression"
           (ArithmeticParams avgDifference (at_ sequence 0))
           next 1 sequence)
  else ret declined.

(** *** [detectGeometric] *)

(** The loop that fills [ratios]: one division per adjacent pair. *)
Fixpoint divideAll (pairs : list (float * float)) : Traced (list float) :=
  match pairs with
  | [] => ret []
  | (a, b) :: rest =>
      tell (Divide a b) ;;;
      ratios <- divideAll rest ;;
      ret (a / b :: ratios)
  end.

Definition detectGeometric (sequence : list float) : Traced result :=
  tell (Run Geometric) ;;;
  if existsb (fun n => n =? 0) sequence then ret declined
  else
    ratios <- divideAll (adjacent sequence) ;;
    let avgRatio := average ratios in
    let isConstant := isConstant ratios avgRatio in
    if isConstant && (tolerance <? abs avgRatio) then
      let next := lastOf sequence * avgRatio in
      ret (detected geometric "Geometric Progression"
             (GeometricParams avgRatio (at_ sequence 0))
             next 1 sequence)
    else ret declined.

(** *** [predictFromDifferences] *)

(** [levels[i] = level], the write-back of an array mutated in place. *)
Fixpoint setAt {A} (i : nat) (x : A) (l : list A) : list A :=
  match l, i with
  | [], _ => []
  | _ :: t, O => x :: t
  | h :: t, S j => h :: setAt j x t
  end.

(** One iteration of the loop over [i].  Since [i > 0], [currentLevel]
    and [parentLevel] are two distinct arrays of [extendedLevels]; each
    is pushed to once and written back at its index. *)
Definition extendStep (extendedLevels : list (list float)) (i : nat)
    : list (list float) :=
  let currentLevel := nth i extendedLevels [] in
  let parentLevel := nth (i - 1) extendedLevels [] in
  if (0 <? length currentLevel)%nat then
    let lastValue := lastOf currentLevel in
    let currentLevel := currentLevel ++ [lastValue] in
    let parentLastValue := lastOf parentLevel in
    let parentLevel := parentLevel ++ [parentLastValue + lastValue] in
    setAt (i - 1) parentLevel (setAt i currentLevel extendedLevels)
  else extendedLevels.

(** [for (let i = extendedLevels.length - 1; i > 0; i--)] *)
Definition extendLevels (extendedLevels : list (list float))
    : list (list float) :=
  fold_left extendStep (rev (seq 1 (length extendedLevels - 1))) extendedLevels.

Definition predictFromDifferences (diffLevels : list (list float)) : float :=
  let extendedLevels := extendLevels (map (fun level => level) diffLevels) in
  lastOf (nth 0 extendedLevels []).

(** *** [detectPolynomial] *)

(** The loop [for (level = 0; level < 5 && currentLevel.length > 1; level++)]
    over the state [diffLevels], [currentLevel]; it returns [diffLevels]
    and [degree] ([0] when the loop ends without a [break]).  [fuel]
    counts the iterations left and is [5 - level] throughout. *)
Fixpoint levelLoop (fuel level : nat) (diffLevels : list (list float))
    (currentLevel : list float) : list (list float) * nat :=
  match fuel with
  | O => (diffLevels, O)
  | S fuel' =>
      if ((level <? 5) && (1 <? length currentLevel))%nat then
        let nextLevel := differences currentLevel in
        let diffLevels := diffLevels ++ [nextLevel] in
        if (0 <? length nextLevel)%nat
           && isConstant nextLevel (average nextLevel)
        then (diffLevels, (level + 1)%nat)
        else levelLoop fuel' (level + 1)%nat diffLevels nextLevel
      else (diffLevels, O)
  end.

(** [`Polynomial Sequence (Degree ${degree})`] *)
Definition polynomialName (degree : nat) : string :=
  ("Polynomial Sequence (Degree "
     ++ NilZero.string_of_uint (Nat.to_uint degree) ++ ")")%string.

Definition detectPolynomial (sequence : list float) : Traced result :=
  tell (Run Polynomial) ;;;
  if (length sequence <? 4)%nat then ret declined
  else
    let (diffLevels, degree) := levelLoop 5 0 [sequence] sequence in
    if ((0 <? degree) && (degree <=? 4))%nat then
      let prediction := predictFromDifferences diffLevels in
      ret (detected polynomial (polynomialName degree)
             (PolynomialParams degree diffLevels)
             prediction 0.9 sequence)
    else ret declined.

(** *** [analyze]

    [sequence.length] counts empty slots and [sequence.some] skips them,
    so an array with empty slots gets past both checks when the elements
    it holds are numbers; the detectors then read [numbers], with [NaN]
    at the empty slots. *)
Definition analyze (sequence : value) : Traced result :=
  match sequence with
  | Arr elems =>
      if (length elems <? 2)%nat then
        ret (invalidResult "Sequence must be an array with at least 2 elements")
      else if existsb notValidNumber elems then
        ret (invalidResult "All elements must be valid numbers")
      else
        let numbers := map toNumber elems in
        arithmeticResult <- detectArithmetic numbers ;;
        if truthy (isValid arithmeticResult) then ret arithmeticResult else
        geometricResult <- detectGeometric numbers ;;
        if truthy (isValid geometricResult) then ret geometricResult else
        polynomialResult <- detectPolynomial numbers ;;
        if truthy (isValid polynomialResult) then ret polynomialResult else
        ret (mkResult (Some false) None (Some unknown)
               (Some "Unable to detect a valid pattern in the sequence"%string)
               None None None None (Some numbers) None None)
  | _ =>
      ret (invalidResult "Sequence must be an array with at least 2 elements")
  end.

(** *** [predictMultiple] *)

(** [result.prediction] as pushed onto an array. *)
Definition predictionOf (r : result) : value :=
  match prediction r with Some p => Num p | None => Undefined end.

(** The loop [for (let i = 0; i < count; i++)] over the state
    [predictions], [currentSequence]; [remaining] is [count - i]. *)
Fixpoint predictLoop (remaining : nat) (predictions currentSequence : list value)
    : Traced (list value * list value) :=
  match remaining with
  | O => ret (predictions, currentSequence)
  | S remaining' =>
      result <- analyze (Arr currentSequence) ;;
      if negb (truthy (success result)) then ret (predictions, currentSequence)
      else
        predictLoop remaining'
          (predictions ++ [predictionOf result])
          (currentSequence ++ [predictionOf result])
  end.

(** [count] is a non-negative integer (section 6 of the specification);
    the default [count = 5] is [predictMultiple sequence 5]. *)
Definition predictMultiple (sequence : value) (count : nat) : Traced result :=
  analysis <- analyze sequence ;;
  if negb (truthy (success analysis)) then ret analysis
  else
    state <- predictLoop count [] (spread sequence) ;;
    let (predictions, currentSequence) := state in
    ret (mkResult (success analysis) (isValid analysis) (type analysis)
           (error analysis) (pattern analysis) (parameters analysis)
           (prediction analysis) (confidence analysis)
           (Result.sequence analysis)
           (Some predictions) (Some currentSequence)).

Close Scope float_scope.

End SequenceDetector.
Import SequenceDetector.

(* ================================================================= *)
(** ** The vocabulary of the specification

    These definitions follow the words of [spec.md]; the theorems below
    compare them with the engine. *)

Module Spec.

Open Scope float_scope.

(** A sequence of numbers as the caller passes it. *)
Definition nums (s : list float) : value := Arr (map Num s).

(** Section 4.1, as the validator implements it: at least two
    elements, none of them [NaN]. *)
Definition validated (s : list float) : Prop :=
  2 <= length s /\ Forall (fun x => is_nan x = false) s.

(** Section 4.1: input that is not a sequence of numbers, is too
    short, or holds an element that is [NaN] or not numeric.  An empty
    slot of a sparse array holds no element. *)
Definition malformed (input : value) : Prop :=
  match input with
  | Arr elems =>
      length elems < 2 \/
      Exists (fun e => match e with
                       | Num x => is_nan x = true
                       | Hole => False
                       | _ => True
                       end) elems
  | _ => True
  end.

(** An array with an empty slot that gets past validation: long enough,
    and every element it holds is a number other than [NaN]. *)
Definition sparse (elems : list value) : Prop :=
  2 <= length elems /\
  existsb notValidNumber elems = false /\
  In Hole elems.

(** A list of numbers with a [NaN] in it. *)
Definition hasNaN (xs : list float) : bool := existsb is_nan xs.

(** [|x - y| < 1e-4] and [|x - y| <= 1e-4] *)
Definition within (x y : float) : bool := abs (x - y) <? tolerance.
Definition atMost (x y : float) : bool := abs (x - y) <=? tolerance.

(** Section 4.2: [d_i = s[i+1] - s[i]] and their mean. *)
Definition gap (s : list float) (i : nat) : float := at_ s (S i) - at_ s i.
Definition gaps (s : list float) : list float :=
  map (gap s) (seq 0 (length s - 1)).
Definition meanGap (s : list float) : float := average (gaps s).

(** Section 4.3: [r_i = s[i+1] / s[i]] and their mean. *)
Definition quotient (s : list float) (i : nat) : float :=
  at_ s (S i) / at_ s i.
Definition quotients (s : list float) : list float :=
  map (quotient s) (seq 0 (length s - 1)).
Definition meanQuotient (s : list float) : float := average (quotients s).

(** An element exactly equal to zero ([=== 0], so [-0] counts). *)
Definition hasZero (s : list float) : bool := existsb (fun n => n =? 0) s.

(** Section 4.4, step 1: level 0 is the sequence, level k+1 the
    consecutive differences of level k; levels 0 to [depth]. *)
Fixpoint differenceTable (level : list float) (depth : nat)
    : list (list float) :=
  match depth with
  | O => [level]
  | S depth' => level :: differenceTable (gaps level) depth'
  end.

(** Section 4.4, step 3: the value the forward extension appends to
    the top level of a table.  The deepest level repeats its last
    value; a shallower level adds its last value to the value
    appended one level deeper. *)
Fixpoint appended (levels : list (list float)) : float :=
  match levels with
  | [] => nan
  | level :: deeper =>
      match deeper with
      | [] => lastOf level
      | _ :: _ => lastOf level + appended deeper
      end
  end.

(** Section 4.2: every [d_i] is within the tolerance of the mean. *)
Definition passesArithmetic (s : list float) : bool :=
  isConstant (gaps s) (meanGap s).

(** Section 4.3: no zero element, every [r_i] within the tolerance of
    the mean, and the mean itself larger than the tolerance. *)
Definition passesGeometric (s : list float) : bool :=
  negb (hasZero s)
  && isConstant (quotients s) (meanQuotient s)
  && (tolerance <? abs (meanQuotient s))%float.

(** Level [k] of the difference hierarchy of [level]. *)
Fixpoint levelAt (level : list float) (k : nat) : list float :=
  match k with
  | O => level
  | S k' => levelAt (gaps level) k'
  end.

(** Section 4.4, step 1: a level that exists and is constant. *)
Definition constantLevel (level : list float) : bool :=
  (0 <? length level)%nat && isConstant level (average level).

(** The degree reported in [parameters], when it has one. *)
Definition degreeOf (r : result) : option nat :=
  match parameters r with
  | Some (PolynomialParams degree _) => Some degree
  | _ => None
  end.

(** The difference table reported in [parameters], when it has one. *)
Definition tableOf (r : result) : option (list (list float)) :=
  match parameters r with
  | Some (PolynomialParams _ levels) => Some levels
  | _ => None
  end.

(** A successful polynomial result of degree 1. *)
Definition isLinearPolynomial (r : result) : bool :=
  match type r, degreeOf r with
  | Some polynomial, Some 1 => true
  | _, _ => false
  end.

(** The events of a trace that are divisions. *)
Definition isDivision (e : event) : bool :=
  match e with Divide _ _ => true | Run _ => false end.

(** A division whose divisor is exactly zero. *)
Definition dividesByZero (e : event) : bool :=
  match e with Divide _ b => b =? 0 | Run _ => false end.

Close Scope float_scope.

End Spec.
Import Spec.

(* ================================================================= *)
(** ** Auxiliary definitions of the proofs *)

(** The arithmetic detector's success object, in the specification's terms. *)
Definition arithmeticSuccess (s : list float) : result :=
  detected arithmetic "Arithmetic Progression"
    (ArithmeticParams (meanGap s) (at_ s 0))
    (lastOf s + meanGap s)%float 1%float s.

(** The geometric detector's success object, in the specification's terms. *)
Definition geometricSuccess (s : list float) : result :=
  detected geometric "Geometric Progression"
    (GeometricParams (meanQuotient s) (at_ s 0))
    (lastOf s * meanQuotient s)%float 1%float s.

(** The fallback object of [analyze]. *)
Definition unknownResult (s : list float) : result :=
  mkResult (Some false) None (Some unknown)
    (Some "Unable to detect a valid pattern in the sequence"%string)
    None None None None (Some s) None None.

(** The state of the reconstruction loop before its iteration at index
    [j]: the levels above [j] are still the built ones, and level [j]
    ends with the value appended at that depth. *)
Definition extendedDownTo (diffLevels : list (list float)) (j : nat)
    (extendedLevels : list (list float)) : Prop :=
  length extendedLevels = length diffLevels /\
  (forall k, k < j -> nth k extendedLevels [] = nth k diffLevels []) /\
  nth j extendedLevels [] <> [] /\
  lastOf (nth j extendedLevels []) = appended (skipn j diffLevels).

(** The number 1 as a sign, a mantissa and an exponent. *)
Definition oneSF : spec_float :=
  S754_finite false 4503599627370496 (-52)%Z.

(** The number 2 likewise. *)
Definition twoSF : spec_float :=
  S754_finite false 4503599627370496 (-51)%Z.

(* ================================================================= *)
(** ** The history of analyses: [class MemoryStore]

    A shallow embedding of [src/echo-chamber/src/memory-store.js].  The
    store object is passed explicitly.  Counters ([totalProcessed], the
    counts of [byType], [successCount]) are natural numbers; as JavaScript
    numbers they are exact below 2^53.  The object [byType] is an
    association list in insertion order, the order [Object.entries]
    reads.  [analyzePatterns] (which formats percentages with [toFixed])
    and [export] (which serialises to JSON) are not modelled. *)

(** [a === b] on the [type] strings. *)
Definition patternType_eqb (a b : patternType) : bool :=
  match a, b with
  | arithmetic, arithmetic | geometric, geometric
  | polynomial, polynomial | unknown, unknown | invalid, invalid => true
  | _, _ => false
  end.

(** The [type] string itself. *)
Definition typeName (t : patternType) : string :=
  match t with
  | arithmetic => "arithmetic"
  | geometric => "geometric"
  | polynomial => "polynomial"
  | unknown => "unknown"
  | invalid => "invalid"
  end.

(** [`${count}`] for a counter. *)
Definition showCount (count : nat) : string :=
  NilZero.string_of_uint (Nat.to_uint count).

Module MemoryStore.

(** An entry of [this.memories]. *)
Record memory : Type := mkMemory {
  id : string;
  timestamp : string;
  result : Result.result;
  sequence : list float;
  type : patternType;
  success : bool
}.

(** [this.stats] *)
Record statistics : Type := mkStats {
  totalProcessed : nat;
  byType : list (patternType * nat);
  averageConfidence : float;
  successRate : float
}.

(** The store object, [this]. *)
Record t : Type := mkStore {
  memories : list memory;
  stats : statistics
}.

(** [constructor()], and the state [clear()] assigns. *)
Definition create : t := mkStore [] (mkStats 0 [] 0%float 0%float).

(** [byType[type] = (byType[type] || 0) + 1]: an existing key keeps its
    place, a new key goes last. *)
Fixpoint countType (type : patternType) (byType : list (patternType * nat))
    : list (patternType * nat) :=
  match byType with
  | [] => [(type, 0 + 1)]
  | (key, count) :: rest =>
      if patternType_eqb key type then (key, count + 1) :: rest
      else (key, count) :: countType type rest
  end.

(** [byType[type]], when the key is present. *)
Fixpoint lookupType (type : patternType) (byType : list (patternType * nat))
    : option nat :=
  match byType with
  | [] => None
  | (key, count) :: rest =>
      if patternType_eqb key type then Some count else lookupType type rest
  end.

(** Truthiness of a number: [0], [-0] and [NaN] are falsy. *)
Definition truthyNumber (x : float) : bool :=
  negb (x =? 0)%float && negb (is_nan x).

(** The body of [this.memories.forEach(memory => ...)] in [updateStats],
    over the state [byType], [totalConfidence], [successCount]. *)
Definition tally (acc : list (patternType * nat) * float * nat) (m : memory)
    : list (patternType * nat) * float * nat :=
  let '(byType, totalConfidence, successCount) := acc in
  (countType (type m) byType,
   match confidence (result m) with
   | Some c => if truthyNumber c then (totalConfidence + c)%float
               else totalConfidence
   | None => totalConfidence
   end,
   if success m then successCount + 1 else successCount).

(** [updateStats()] *)
Definition updateStats (this : t) : t :=
  let n := length (memories this) in
  let '(byType, totalConfidence, successCount) :=
    fold_left tally (memories this) ([], 0%float, 0) in
  mkStore (memories this)
    (mkStats n byType
       (if 0 <? n then (totalConfidence / ofLength n)%float else 0%float)
       (if 0 <? n then (ofLength successCount / ofLength n)%float
        else 0%float)).

(** [store(result)].  [generateId()] and [new Date().toISOString()] read
    the clock and the random generator; their values are the inputs
    [newId] and [now].  Returns the updated store and the new entry. *)
Definition store (newId now : string) (r : Result.result) (this : t)
    : t * memory :=
  let memory :=
    mkMemory newId now r
      (match Result.sequence r with Some s => s | None => [] end)
      (match Result.type r with Some ty => ty | None => unknown end)
      (truthy (Result.success r)) in
  (updateStats (mkStore (memories this ++ [memory]) (stats this)), memory).

(** [getAll()] *)
Definition getAll (this : t) : list memory := memories this.

(** [getByType(type)] *)
Definition getByType (ty : patternType) (this : t) : list memory :=
  filter (fun m => patternType_eqb (type m) ty) (memories this).

(** [xs.slice(start)] for an integer [start]: a negative [start] counts
    from the end. *)
Definition sliceFrom {A} (start : Z) (xs : list A) : list A :=
  let len := Z.of_nat (length xs) in
  let k := if (start <? 0)%Z then Z.max (len + start) 0 else Z.min start len in
  skipn (Z.to_nat k) xs.

(** [getRecent(count)] for an integer [count] (default 10). *)
Definition getRecent (count : Z) (this : t) : list memory :=
  rev (sliceFrom (- count) (memories this)).

(** [getStats()] *)
Definition getStats (this : t) : statistics := stats this.

(** [clear()] *)
Definition clear (this : t) : t := create.

(** [`Streak of ${count} ${currentType} sequences`] *)
Definition streak (count : nat) (currentType : string) : string :=
  ("Streak of " ++ showCount count ++ " " ++ currentType ++ " sequences")%string.

(** [`Current streak of ${count} ${currentType} sequences`] *)
Definition currentStreak (count : nat) (currentType : string) : string :=
  ("Current streak of " ++ showCount count ++ " " ++ currentType
     ++ " sequences")%string.

(** The loop [for (let i = 1; i < types.length; i++)] of
    [identifyTrends], over the state [trends], [currentType], [count];
    [types] holds the elements from index [i] on. *)
Fixpoint trendLoop (types : list string) (trends : list string)
    (currentType : string) (count : nat) : list string * string * nat :=
  match types with
  | [] => (trends, currentType, count)
  | ty :: rest =>
      if String.eqb ty currentType then
        trendLoop rest trends currentType (count + 1)
      else
        let trends :=
          if 3 <=? count then trends ++ [streak count currentType]
          else trends in
        trendLoop rest trends ty 1
  end.

(** [identifyTrends(types)] *)
Definition identifyTrends (types : list string) : list string :=
  if length types <? 3 then []
  else
    let '(trends, currentType, count) :=
      trendLoop (tl types) [] (hd ""%string types) 1 in
    if 3 <=? count then trends ++ [currentStreak count currentType]
    else trends.

End MemoryStore.

(* ================================================================= *)
(** ** Further vocabulary *)

(** The detectors entered during a run, in order. *)
Definition detectorsRun (events : list event) : list detector :=
  flat_map (fun e => match e with Run d => [d] | Divide _ _ => [] end) events.

(** How often the arithmetic detector is entered, which is how often
    [analyze] gets past validation. *)
Definition arithmeticRuns (events : list event) : nat :=
  length (filter (fun e => match e with
                           | Run Arithmetic => true
                           | _ => false
                           end) events).

(** The number of entries of a store whose [type] is [ty]. *)
Definition entriesOfType (ty : patternType) (ms : list MemoryStore.memory)
    : nat :=
  length (filter (fun m => patternType_eqb (MemoryStore.type m) ty) ms).

(** The counters of a store agree with its entries. *)
Definition consistent (this : MemoryStore.t) : Prop :=
  let st := MemoryStore.stats this in
  let ms := MemoryStore.memories this in
  MemoryStore.totalProcessed st = length ms /\
  NoDup (map fst (MemoryStore.byType st)) /\
  (forall ty,
     MemoryStore.lookupType ty (MemoryStore.byType st)
     = if 0 <? entriesOfType ty ms then Some (entriesOfType ty ms) else None).

(** A store after three analyses, as the server leaves it after three
    requests: [[1,2,3]], then [[2,4,8]], then [[1,4,9,16]]. *)
Definition threeAnalyses : MemoryStore.t :=
  let add newId now input this :=
    fst (MemoryStore.store newId now (returned (analyze input)) this) in
  add "mem_3"%string "2024-01-01T00:00:03.000Z"%string (nums [1; 4; 9; 16]%float)
    (add "mem_2"%string "2024-01-01T00:00:02.000Z"%string (nums [2; 4; 8]%float)
       (add "mem_1"%string "2024-01-01T00:00:01.000Z"%string (nums [1; 2; 3]%float)
          MemoryStore.create)).

(* ================================================================= *)
(** ** Worked inputs of the specification *)

Open Scope float_scope.

(** C5. [analyze([1,4,9,16,25])] returns kind polynomial with degree 2 and
    prediction 36, and [analyze([1,8,27,64,125])] returns prediction 216. *)
Theorem squares_and_cubes :
  let squares := returned (analyze (nums [1; 4; 9; 16; 25])) in
  let cubes := returned (analyze (nums [1; 8; 27; 64; 125])) in
  type squares = Some polynomial /\
  degreeOf squares = Some 2%nat /\
  prediction squares = Some 36 /\
  prediction cubes = Some 216.
Proof. vm_compute. repeat split. Qed.

(** C6. [predictMultiple([3,6,9], 5)] returns the predictions
    [12,15,18,21,24] and [predictMultiple([2,4,8], 3)] returns [16,32,64],
    exactly. *)
Theorem multi_step_examples :
  predictions (returned (predictMultiple (nums [3; 6; 9]) 5))
    = Some [Num 12; Num 15; Num 18; Num 21; Num 24] /\
  predictions (returned (predictMultiple (nums [2; 4; 8]) 3))
    = Some [Num 16; Num 32; Num 64].
Proof. vm_compute. split; reflexivity. Qed.

(** C1, the engine at the input of the claim.  [analyze([1,2,4,7,13])]
    does not fall through to the unknown result: the fourth difference
    level is the single value [2], which passes the constancy test, so
    the polynomial detector reports degree 4 and predicts 26. *)
Theorem ambiguity_input_is_polynomial :
  let r := returned (analyze (nums [1; 2; 4; 7; 13])) in
  success r = Some true /\
  type r = Some polynomial /\
  degreeOf r = Some 4%nat /\
  tableOf r = Some [[1; 2; 4; 7; 13]; [1; 2; 3; 6]; [1; 1; 3]; [0; 2]; [2]] /\
  prediction r = Some 26.
Proof. vm_compute. repeat split. Qed.

Close Scope float_scope.

(* ================================================================= *)
(** ** Reading a traced run *)

Section TracedRuns.

Context {A B : Type}.

Lemma returned_bind (m : Traced A) (k : A -> Traced B) :
  returned (bind m k) = returned (k (returned m)).
Proof.
  unfold returned, bind. destruct m as [t1 a]. simpl.
  destruct (k a); reflexivity.
Qed.

Lemma trace_bind (m : Traced A) (k : A -> Traced B) :
  trace (bind m k) = trace m ++ trace (k (returned m)).
Proof.
  unfold trace, returned, bind. destruct m as [t1 a]. simpl.
  destruct (k a); reflexivity.
Qed.

Lemma returned_if (c : bool) (x y : Traced A) :
  returned (if c then x else y) = if c then returned x else returned y.
Proof. destruct c; reflexivity. Qed.

Lemma trace_if (c : bool) (x y : Traced A) :
  trace (if c then x else y) = if c then trace x else trace y.
Proof. destruct c; reflexivity. Qed.

End TracedRuns.

Lemma divideAll_returned pairs :
  returned (divideAll pairs) = map (fun p => (fst p / snd p)%float) pairs.
Proof.
  induction pairs as [|[a b] rest IH]; [reflexivity|].
  cbn [divideAll]. rewrite !returned_bind. cbn [map fst snd].
  unfold ret at 1. cbn [returned snd]. f_equal. exact IH.
Qed.

Lemma divideAll_trace pairs :
  trace (divideAll pairs) = map (fun p => Divide (fst p) (snd p)) pairs.
Proof.
  induction pairs as [|[a b] rest IH]; [reflexivity|].
  cbn [divideAll]. rewrite !trace_bind. cbn [map fst snd].
  unfold tell at 1, ret at 1. cbn [trace fst]. rewrite app_nil_r.
  cbn [app]. f_equal. exact IH.
Qed.

(** The two loops over adjacent pairs compute the [d_i] and [r_i] of
    the specification. *)
Lemma adjacent_shift xs (f : float -> float -> float) :
  map (fun p => f (fst p) (snd p)) (adjacent xs)
  = map (fun i => f (at_ xs (S i)) (at_ xs i)) (seq 0 (length xs - 1)).
Proof.
  unfold adjacent. rewrite map_map, <- seq_shift, map_map.
  apply map_ext. intro i. cbn [fst snd]. now rewrite Nat.sub_1_r.
Qed.

Lemma differences_gaps xs : differences xs = gaps xs.
Proof. exact (adjacent_shift xs PrimFloat.sub). Qed.

Lemma ratios_quotients xs :
  returned (divideAll (adjacent xs)) = quotients xs.
Proof. rewrite divideAll_returned. exact (adjacent_shift xs PrimFloat.div). Qed.

Lemma gaps_length xs : length (gaps xs) = length xs - 1.
Proof. unfold gaps. now rewrite length_map, length_seq. Qed.

(** The constancy test over the [d_i], index by index. *)
Lemma isConstant_gaps s avg :
  isConstant (gaps s) avg = true <->
  forall i, i < length s - 1 -> within (gap s i) avg = true.
Proof.
  unfold isConstant, gaps. rewrite forallb_forall. split.
  - intros H i Hi. apply (H (gap s i)). apply in_map, in_seq. lia.
  - intros H d Hd. apply in_map_iff in Hd as (i & <- & Hi).
    apply in_seq in Hi. apply H. lia.
Qed.

Lemma isConstant_quotients s avg :
  isConstant (quotients s) avg = true <->
  forall i, i < length s - 1 -> within (quotient s i) avg = true.
Proof.
  unfold isConstant, quotients. rewrite forallb_forall. split.
  - intros H i Hi. apply (H (quotient s i)). apply in_map, in_seq. lia.
  - intros H d Hd. apply in_map_iff in Hd as (i & <- & Hi).
    apply in_seq in Hi. apply H. lia.
Qed.

(* ================================================================= *)
(** ** What each detector returns and records *)

Lemma detectArithmetic_run s :
  detectArithmetic s =
    ([Run Arithmetic],
     if isConstant (gaps s) (meanGap s) then arithmeticSuccess s else declined).
Proof.
  unfold detectArithmetic, arithmeticSuccess, meanGap.
  rewrite differences_gaps.
  destruct (isConstant (gaps s) (average (gaps s))); reflexivity.
Qed.

Lemma detectGeometric_returned s :
  returned (detectGeometric s) =
    if hasZero s then declined
    else if isConstant (quotients s) (meanQuotient s)
            && (tolerance <? abs (meanQuotient s))%float
         then geometricSuccess s else declined.
Proof.
  unfold detectGeometric, geometricSuccess, meanQuotient, hasZero.
  rewrite returned_bind, returned_if.
  destruct (existsb _ s); [reflexivity|].
  rewrite returned_bind, ratios_quotients.
  destruct (_ && _); reflexivity.
Qed.

Lemma detectGeometric_trace s :
  trace (detectGeometric s) =
    Run Geometric ::
    (if hasZero s then []
     else map (fun p => Divide (fst p) (snd p)) (adjacent s)).
Proof.
  unfold detectGeometric, hasZero.
  rewrite trace_bind, trace_if. cbn [tell trace fst app]. f_equal.
  destruct (existsb _ s); [reflexivity|].
  rewrite trace_bind, divideAll_trace.
  destruct (_ && _); cbn [ret trace fst]; now rewrite app_nil_r.
Qed.

Lemma detectPolynomial_trace s : trace (detectPolynomial s) = [Run Polynomial].
Proof.
  unfold detectPolynomial. rewrite trace_bind, trace_if.
  cbn [tell trace fst app]. f_equal.
  destruct (length s <? 4); [reflexivity|].
  destruct (levelLoop 5 0 [s] s) as [levels degree].
  destruct (_ && _); reflexivity.
Qed.

Lemma detectPolynomial_returned s :
  returned (detectPolynomial s) =
    if length s <? 4 then declined
    else
      let (levels, degree) := levelLoop 5 0 [s] s in
      if (0 <? degree) && (degree <=? 4) then
        detected polynomial (polynomialName degree)
          (PolynomialParams degree levels)
          (predictFromDifferences levels) 0.9%float s
      else declined.
Proof.
  unfold detectPolynomial. rewrite returned_bind, returned_if.
  destruct (length s <? 4); [reflexivity|].
  destruct (levelLoop 5 0 [s] s) as [levels degree].
  destruct (_ && _); reflexivity.
Qed.

(* ================================================================= *)
(** ** The level loop of the difference engine *)

Lemma levelAt_succ level k : levelAt level (S k) = gaps (levelAt level k).
Proof.
  revert level. induction k as [|k IH]; intro level; [reflexivity|].
  cbn [levelAt]. rewrite <- IH. reflexivity.
Qed.

Lemma levelAt_length level k : length (levelAt level k) = length level - k.
Proof.
  revert level. induction k as [|k IH]; intro level; cbn [levelAt].
  - lia.
  - rewrite IH, gaps_length. lia.
Qed.

Lemma differenceTable_length level depth :
  length (differenceTable level depth) = S depth.
Proof.
  revert level. induction depth as [|d IH]; intro level; cbn; [reflexivity|].
  now rewrite IH.
Qed.

Lemma differenceTable_nth level depth k :
  k <= depth -> nth k (differenceTable level depth) [] = levelAt level k.
Proof.
  revert level k. induction depth as [|d IH]; intros level k Hk.
  - assert (k = 0) as -> by lia. reflexivity.
  - destruct k as [|k]; [reflexivity|]. cbn [differenceTable nth levelAt].
    apply IH. lia.
Qed.

(** The level loop of [detectPolynomial]: when it ends with a degree,
    it has built the levels up to that degree, the level of that degree
    is the first constant one, and every level above it had more than
    one value. *)
Lemma levelLoop_spec fuel : forall level diffLevels currentLevel levels degree,
  levelLoop fuel level diffLevels currentLevel = (levels, degree) ->
  degree = 0 \/
  exists k,
    degree = level + S k /\
    level + k < 5 /\
    levels = diffLevels ++ differenceTable (gaps currentLevel) k /\
    constantLevel (levelAt currentLevel (S k)) = true /\
    (forall j, j < k -> constantLevel (levelAt currentLevel (S j)) = false) /\
    (forall j, j <= k -> 1 < length (levelAt currentLevel j)).
Proof.
  induction fuel as [|fuel IH]; intros level acc cur levels degree Hrun.
  { cbn in Hrun. injection Hrun as _ <-. now left. }
  cbn [levelLoop] in Hrun.
  destruct (Nat.ltb_spec level 5) as [Hlevel|_]; cbn [andb] in Hrun;
    [|injection Hrun as _ <-; now left].
  destruct (Nat.ltb_spec 1 (length cur)) as [Hcur|_];
    [|injection Hrun as _ <-; now left].
  rewrite differences_gaps in Hrun. fold (constantLevel (gaps cur)) in Hrun.
  destruct (constantLevel (gaps cur)) eqn:Hconst.
  - injection Hrun as <- <-. right. exists 0.
    repeat split; try lia; try assumption.
    intros j Hj. replace j with 0 by lia. exact Hcur.
  - apply IH in Hrun as [->|(k & -> & Hk & -> & Hlast & Hfirst & Hlen)];
      [now left|].
    right. exists (S k). repeat split; try lia.
    + rewrite <- app_assoc. reflexivity.
    + exact Hlast.
    + intros [|j] Hj; [exact Hconst|]. apply (Hfirst j). lia.
    + intros [|j] Hj; [exact Hcur|]. apply (Hlen j). lia.
Qed.

(** What a success of the polynomial detector holds. *)
Lemma detectPolynomial_success s :
  truthy (isValid (returned (detectPolynomial s))) = true ->
  exists k,
    k < 4 /\
    returned (detectPolynomial s) =
      detected polynomial (polynomialName (S k))
        (PolynomialParams (S k) (differenceTable s (S k)))
        (predictFromDifferences (differenceTable s (S k))) 0.9%float s /\
    constantLevel (levelAt s (S k)) = true /\
    (forall j, j < k -> constantLevel (levelAt s (S j)) = false) /\
    (forall j, j <= k -> 1 < length (levelAt s j)).
Proof.
  rewrite detectPolynomial_returned.
  destruct (length s <? 4); [discriminate|].
  destruct (levelLoop 5 0 [s] s) as [levels degree] eqn:Hrun.
  destruct (Nat.ltb_spec 0 degree) as [Hpos|_]; [|discriminate].
  destruct (Nat.leb_spec degree 4) as [Hmax|_]; [|discriminate].
  cbn [andb]. intros _.
  apply levelLoop_spec in Hrun as [->|(k & -> & _ & -> & Hlast & Hfirst & Hlen)];
    [lia|].
  exists k. cbn [Nat.add] in *.
  split; [lia|]. split; [reflexivity|]. repeat split; assumption.
Qed.

(* ================================================================= *)
(** ** The waterfall of [analyze] *)

Lemma toNumber_Num s : map toNumber (map Num s) = s.
Proof. rewrite map_map. cbn [toNumber]. apply map_id. Qed.

Lemma notValidNumber_nums s :
  existsb notValidNumber (map Num s) = existsb is_nan s.
Proof. induction s as [|x s IH]; [reflexivity|]. cbn. now rewrite IH. Qed.

(** The spread copy of an array reads like the array: an empty slot and
    the [undefined] that replaces it both read as [NaN]. *)
Lemma spread_toNumber elems :
  map toNumber (spread (Arr elems)) = map toNumber elems.
Proof.
  cbn [spread]. rewrite map_map. apply map_ext.
  intros e. now destruct e.
Qed.

Lemma spread_numbers s : spread (nums s) = map Num s.
Proof. unfold nums. cbn [spread]. rewrite map_map. reflexivity. Qed.

Lemma validated_passes s :
  validated s ->
  (length (map Num s) <? 2) = false /\
  existsb notValidNumber (map Num s) = false.
Proof.
  intros [Hlen Hnan]. split.
  - rewrite length_map. apply Nat.ltb_ge. exact Hlen.
  - rewrite notValidNumber_nums. clear Hlen.
    induction Hnan as [|x s Hx _ IH]; [reflexivity|].
    cbn [existsb]. now rewrite Hx, IH.
Qed.

Lemma detectGeometric_passes s :
  returned (detectGeometric s) =
    if passesGeometric s then geometricSuccess s else declined.
Proof.
  rewrite detectGeometric_returned. unfold passesGeometric.
  destruct (hasZero s); [reflexivity|]. cbn [negb andb].
  destruct (isConstant _ _); [|reflexivity]. cbn [andb]. reflexivity.
Qed.

(** On an array that gets past validation [analyze] returns the first
    success of the three detectors, in order, or the unknown result; the
    detectors read the numbers [map toNumber elems]. *)
Lemma analyze_accepted elems :
  (length elems <? 2) = false ->
  existsb notValidNumber elems = false ->
  let s := map toNumber elems in
  let r := returned (analyze (Arr elems)) in
  (passesArithmetic s = true /\ r = arithmeticSuccess s) \/
  (passesArithmetic s = false /\ passesGeometric s = true /\
   r = geometricSuccess s) \/
  (passesArithmetic s = false /\ passesGeometric s = false /\
   truthy (isValid (returned (detectPolynomial s))) = true /\
   r = returned (detectPolynomial s)) \/
  (passesArithmetic s = false /\ passesGeometric s = false /\
   truthy (isValid (returned (detectPolynomial s))) = false /\
   r = unknownResult s).
Proof.
  intros Hlen Hnum. cbv zeta. set (s := map toNumber elems).
  unfold analyze. rewrite Hlen, Hnum. fold s.
  cbv zeta. rewrite returned_bind, detectArithmetic_run.
  cbn [returned snd]. unfold passesArithmetic.
  destruct (isConstant (gaps s) (meanGap s)).
  { left. split; reflexivity. }
  right. cbn [declined isValid truthy].
  rewrite returned_bind, detectGeometric_passes.
  destruct (passesGeometric s).
  { left. repeat split; reflexivity. }
  right. cbn [declined isValid truthy]. rewrite returned_bind.
  destruct (truthy (isValid (returned (detectPolynomial s)))) eqn:Hp.
  - left. repeat split; reflexivity.
  - right. repeat split; reflexivity.
Qed.

Lemma analyze_accepted_trace elems :
  (length elems <? 2) = false ->
  existsb notValidNumber elems = false ->
  let s := map toNumber elems in
  trace (analyze (Arr elems)) =
    Run Arithmetic ::
    (if passesArithmetic s then []
     else trace (detectGeometric s)
          ++ (if passesGeometric s then [] else [Run Polynomial])).
Proof.
  intros Hlen Hnum. cbv zeta. set (s := map toNumber elems).
  unfold analyze. rewrite Hlen, Hnum. fold s.
  cbv zeta. rewrite trace_bind, detectArithmetic_run.
  cbn [trace returned fst snd app]. f_equal. unfold passesArithmetic.
  destruct (isConstant (gaps s) (meanGap s)); [reflexivity|].
  cbn [declined isValid truthy].
  rewrite trace_bind, detectGeometric_passes. f_equal.
  destruct (passesGeometric s); [reflexivity|].
  cbn [declined isValid truthy].
  rewrite trace_bind, detectPolynomial_trace.
  destruct (truthy _); reflexivity.
Qed.

(** On a validated sequence [analyze] returns the first success of the
    three detectors, in order, or the unknown result. *)
Lemma analyze_validated s :
  validated s ->
  let r := returned (analyze (nums s)) in
  (passesArithmetic s = true /\ r = arithmeticSuccess s) \/
  (passesArithmetic s = false /\ passesGeometric s = true /\
   r = geometricSuccess s) \/
  (passesArithmetic s = false /\ passesGeometric s = false /\
   truthy (isValid (returned (detectPolynomial s))) = true /\
   r = returned (detectPolynomial s)) \/
  (passesArithmetic s = false /\ passesGeometric s = false /\
   truthy (isValid (returned (detectPolynomial s))) = false /\
   r = unknownResult s).
Proof.
  intros Hv. destruct (validated_passes s Hv) as [Hlen Hnum].
  pose proof (analyze_accepted (map Num s) Hlen Hnum) as H.
  cbv zeta in H. rewrite toNumber_Num in H. exact H.
Qed.

Lemma analyze_validated_trace s :
  validated s ->
  trace (analyze (nums s)) =
    Run Arithmetic ::
    (if passesArithmetic s then []
     else trace (detectGeometric s)
          ++ (if passesGeometric s then [] else [Run Polynomial])).
Proof.
  intros Hv. destruct (validated_passes s Hv) as [Hlen Hnum].
  pose proof (analyze_accepted_trace (map Num s) Hlen Hnum) as H.
  cbv zeta in H. rewrite toNumber_Num in H. exact H.
Qed.

(** *** Arrays with an empty slot

    Reading an empty slot gives [NaN] in every difference and ratio that
    touches it, and [NaN] spreads to every mean and every deeper level,
    so no detector accepts. *)

Lemma SFcompare_refl x : x <> S754_nan -> SFcompare x x = Some Eq.
Proof.
  destruct x as [s|s| |s m e]; intros H; try contradiction.
  - reflexivity.
  - destruct s; reflexivity.
  - cbn. rewrite Z.compare_refl, Pos.compare_cont_refl.
    destruct s; reflexivity.
Qed.

Lemma is_nan_spec x : is_nan x = true -> x = nan.
Proof.
  unfold is_nan. rewrite FloatAxioms.eqb_spec. unfold SFeqb. intros H.
  apply Prim2SF_inj. change (Prim2SF nan) with S754_nan.
  destruct (Prim2SF x) eqn:E; try reflexivity;
    rewrite SFcompare_refl in H by discriminate; discriminate.
Qed.

Lemma sub_nan_r x : (x - nan)%float = nan.
Proof.
  apply Prim2SF_inj. rewrite FloatAxioms.sub_spec.
  change (Prim2SF nan) with S754_nan. now destruct (Prim2SF x).
Qed.

Lemma sub_nan_l x : (nan - x)%float = nan.
Proof.
  apply Prim2SF_inj. rewrite FloatAxioms.sub_spec.
  change (Prim2SF nan) with S754_nan. reflexivity.
Qed.

Lemma add_nan_r x : (x + nan)%float = nan.
Proof.
  apply Prim2SF_inj. rewrite FloatAxioms.add_spec.
  change (Prim2SF nan) with S754_nan. now destruct (Prim2SF x).
Qed.

Lemma add_nan_l x : (nan + x)%float = nan.
Proof.
  apply Prim2SF_inj. rewrite FloatAxioms.add_spec.
  change (Prim2SF nan) with S754_nan. reflexivity.
Qed.

Lemma div_nan_r x : (x / nan)%float = nan.
Proof.
  apply Prim2SF_inj. rewrite FloatAxioms.div_spec.
  change (Prim2SF nan) with S754_nan. now destruct (Prim2SF x).
Qed.

Lemma div_nan_l x : (nan / x)%float = nan.
Proof.
  apply Prim2SF_inj. rewrite FloatAxioms.div_spec.
  change (Prim2SF nan) with S754_nan. reflexivity.
Qed.

Lemma fold_add_nan xs : fold_left PrimFloat.add xs nan = nan.
Proof.
  induction xs as [|x xs IH]; [reflexivity|].
  cbn [fold_left]. now rewrite add_nan_l.
Qed.

Lemma sum_nan xs : hasNaN xs = true -> sum xs = nan.
Proof.
  unfold sum, hasNaN. generalize 0%float as acc.
  induction xs as [|x xs IH]; intros acc H; [discriminate|].
  cbn [existsb fold_left] in *. destruct (is_nan x) eqn:Hx.
  - apply is_nan_spec in Hx. subst x. rewrite add_nan_r. apply fold_add_nan.
  - apply IH. exact H.
Qed.

(** A level with a [NaN] never passes the constancy test. *)
Lemma isConstant_nan xs :
  hasNaN xs = true -> isConstant xs (average xs) = false.
Proof.
  intros H. unfold average. rewrite (sum_nan xs H), div_nan_l.
  destruct xs as [|d xs]; [discriminate|].
  unfold isConstant. cbn [forallb]. now rewrite sub_nan_r.
Qed.

Lemma constantLevel_nan xs : hasNaN xs = true -> constantLevel xs = false.
Proof.
  intros H. unfold constantLevel. rewrite (isConstant_nan xs H).
  apply andb_false_r.
Qed.

(** A [NaN] in a list of at least two values gives a [NaN] among the
    values computed from adjacent pairs, for subtraction and division. *)
Lemma adjacent_nan (op : float -> float -> float) s :
  (forall x, op x nan = nan) ->
  (forall x, op nan x = nan) ->
  hasNaN s = true ->
  2 <= length s ->
  hasNaN (map (fun i => op (at_ s (S i)) (at_ s i)) (seq 0 (length s - 1)))
  = true.
Proof.
  intros Hr Hl Hnan Hlen. unfold hasNaN in *.
  apply existsb_exists in Hnan as (x & Hin & Hx).
  apply is_nan_spec in Hx. subst x.
  apply (In_nth _ _ nan) in Hin as (i & Hi & Hnth).
  apply existsb_exists. exists nan. split; [|reflexivity].
  apply in_map_iff.
  destruct (Nat.ltb_spec i (length s - 1)) as [Hlt|Hge].
  - exists i. split; [|apply in_seq; lia].
    unfold at_ at 2. rewrite Hnth. apply Hr.
  - exists (i - 1). split; [|apply in_seq; lia].
    unfold at_ at 1. replace (S (i - 1)) with i by lia.
    rewrite Hnth. apply Hl.
Qed.

Lemma gaps_nan s : hasNaN s = true -> 2 <= length s -> hasNaN (gaps s) = true.
Proof. apply (adjacent_nan PrimFloat.sub); [apply sub_nan_r|apply sub_nan_l]. Qed.

Lemma quotients_nan s :
  hasNaN s = true -> 2 <= length s -> hasNaN (quotients s) = true.
Proof. apply (adjacent_nan PrimFloat.div); [apply div_nan_r|apply div_nan_l]. Qed.

Lemma levelAt_nan k : forall s,
  hasNaN s = true ->
  (forall j, j < k -> 1 < length (levelAt s j)) ->
  hasNaN (levelAt s k) = true.
Proof.
  induction k as [|k IH]; intros s Hnan Hlen; [exact Hnan|].
  cbn [levelAt]. apply IH.
  - apply gaps_nan; [exact Hnan|]. apply (Hlen 0). lia.
  - intros j Hj. apply (Hlen (S j)). lia.
Qed.

(** No detector accepts a list of at least two numbers with a [NaN]. *)
Lemma nan_never_classified s :
  hasNaN s = true ->
  2 <= length s ->
  passesArithmetic s = false /\
  passesGeometric s = false /\
  truthy (isValid (returned (detectPolynomial s))) = false.
Proof.
  intros Hnan Hlen. split; [|split].
  - unfold passesArithmetic, meanGap. apply isConstant_nan.
    now apply gaps_nan.
  - unfold passesGeometric, meanQuotient.
    rewrite (isConstant_nan (quotients s)) by now apply quotients_nan.
    now rewrite andb_false_r.
  - destruct (truthy (isValid (returned (detectPolynomial s)))) eqn:Hp;
      [|reflexivity].
    destruct (detectPolynomial_success s Hp) as (k & _ & _ & Hlast & _ & Hlens).
    rewrite constantLevel_nan in Hlast; [discriminate|].
    apply levelAt_nan; [exact Hnan|].
    intros j Hj. apply Hlens. lia.
Qed.

Lemma sparse_hasNaN elems : sparse elems -> hasNaN (map toNumber elems) = true.
Proof.
  intros (_ & _ & Hhole). apply existsb_exists. exists nan.
  split; [|reflexivity]. now apply (in_map toNumber) in Hhole.
Qed.

(** An array with an empty slot that gets past validation runs through
    the three detectors and gets the unknown result. *)
Lemma analyze_sparse elems :
  sparse elems ->
  let s := map toNumber elems in
  analyze (Arr elems) =
    (Run Arithmetic :: trace (detectGeometric s) ++ [Run Polynomial],
     unknownResult s).
Proof.
  intros Hsp. cbv zeta.
  pose proof (sparse_hasNaN elems Hsp) as Hnan.
  destruct Hsp as (Hlen & Hnum & _).
  assert (Hlen' : (length elems <? 2) = false) by now apply Nat.ltb_ge.
  destruct (nan_never_classified (map toNumber elems) Hnan)
    as (Ha & Hg & Hp); [now rewrite length_map|].
  pose proof (analyze_accepted_trace elems Hlen' Hnum) as Htr.
  cbv zeta in Htr. rewrite Ha, Hg in Htr.
  destruct (analyze_accepted elems Hlen' Hnum)
    as [(H & _)|[(_ & H & _)|[(_ & _ & H & _)|(_ & _ & _ & Hr)]]];
    try congruence.
  rewrite <- Htr, <- Hr. unfold trace, returned.
  now destruct (analyze (Arr elems)).
Qed.

(** Every input is rejected by the validator, or is a validated sequence
    of numbers, or is an array with an empty slot that gets past
    validation. *)
Lemma input_cases input :
  malformed input \/
  (exists s, input = nums s /\ validated s) \/
  (exists elems, input = Arr elems /\ sparse elems).
Proof.
  destruct input as [x|str|b| | |elems| |]; try (left; exact I).
  destruct (Nat.ltb_spec (length elems) 2) as [Hshort|Hlen].
  { left. left. exact Hshort. }
  assert (Hdec : Exists (fun e => match e with
                                  | Num x => is_nan x = true
                                  | Hole => False
                                  | _ => True
                                  end) elems
                 \/ (exists s, elems = map Num s /\
                               Forall (fun x => is_nan x = false) s)
                 \/ (existsb notValidNumber elems = false /\ In Hole elems)).
  { clear Hlen. induction elems as [|e elems IH].
    - right. left. exists []. split; [reflexivity|constructor].
    - destruct IH as [IH|[(s & -> & Hs)|(Hok & Hhole)]].
      + left. now apply Exists_cons_tl.
      + destruct e as [x|str|b| | |l| |];
          try (left; apply Exists_cons_hd; exact I).
        * destruct (is_nan x) eqn:Hx.
          -- left. apply Exists_cons_hd. exact Hx.
          -- right. left. exists (x :: s). split; [reflexivity|].
             constructor; assumption.
        * right. right. split; [|now left]. cbn [existsb notValidNumber orb].
          rewrite notValidNumber_nums.
          induction Hs as [|y s Hy _ IHs]; [reflexivity|].
          cbn [existsb]. now rewrite Hy, IHs.
      + destruct e as [x|str|b| | |l| |];
          try (left; apply Exists_cons_hd; exact I).
        * destruct (is_nan x) eqn:Hx.
          -- left. apply Exists_cons_hd. exact Hx.
          -- right. right. split; [|now right].
             cbn [existsb notValidNumber]. now rewrite Hx, Hok.
        * right. right. split; [|now left].
          cbn [existsb notValidNumber orb]. exact Hok. }
  destruct Hdec as [Hbad|[(s & -> & Hs)|(Hok & Hhole)]].
  - left. right. exact Hbad.
  - right. left. exists s. split; [reflexivity|].
    split; [|exact Hs]. rewrite length_map in Hlen. exact Hlen.
  - right. right. exists elems. split; [reflexivity|].
    split; [exact Hlen|]. split; assumption.
Qed.

(** The validator's two failure objects, returned before any detector. *)
Lemma analyze_malformed input :
  malformed input ->
  exists msg, analyze input = ([], invalidResult msg) /\ msg <> ""%string.
Proof.
  intros Hbad.
  destruct input as [x|str|b| | |elems| |];
    try (eexists; split; [reflexivity|discriminate]); try contradiction.
  cbn [analyze]. destruct (Nat.ltb_spec (length elems) 2) as [Hshort|Hlen].
  { eexists; split; [reflexivity|discriminate]. }
  destruct Hbad as [Hshort|Hbad]; [lia|].
  assert (Hex : existsb notValidNumber elems = true).
  { apply existsb_exists. apply Exists_exists in Hbad as (e & Hin & He).
    exists e. split; [exact Hin|].
    destruct e; try reflexivity; [exact He|contradiction]. }
  rewrite Hex. eexists; split; [reflexivity|discriminate].
Qed.

Lemma analyze_no_predictions input :
  predictions (returned (analyze input)) = None.
Proof.
  destruct (input_cases input)
    as [Hbad|[(s & -> & Hv)|(elems & -> & Hsp)]].
  - destruct (analyze_malformed input Hbad) as (msg & -> & _). reflexivity.
  - destruct (analyze_validated s Hv)
      as [(_ & ->)|[(_ & _ & ->)|[(_ & _ & _ & ->)|(_ & _ & _ & ->)]]];
      try reflexivity.
    rewrite detectPolynomial_returned.
    destruct (length s <? 4); [reflexivity|].
    destruct (levelLoop 5 0 [s] s) as [levels degree].
    destruct (_ && _); reflexivity.
  - rewrite (analyze_sparse elems Hsp). reflexivity.
Qed.

Lemma detectPolynomial_type s :
  type (returned (detectPolynomial s)) = Some polynomial \/
  returned (detectPolynomial s) = declined.
Proof.
  rewrite detectPolynomial_returned.
  destruct (length s <? 4); [now right|].
  destruct (levelLoop 5 0 [s] s) as [levels degree].
  destruct (_ && _); [now left|now right].
Qed.

(** The kind reported on a validated sequence, test by test. *)
Lemma analyze_validated_type s :
  validated s ->
  type (returned (analyze (nums s))) =
    if passesArithmetic s then Some arithmetic
    else if passesGeometric s then Some geometric
    else if truthy (isValid (returned (detectPolynomial s)))
         then Some polynomial else Some unknown.
Proof.
  intros Hv.
  destruct (analyze_validated s Hv)
    as [(-> & ->)|[(-> & -> & ->)|[(-> & -> & Hp & ->)|(-> & -> & -> & ->)]]];
    try reflexivity.
  rewrite Hp. destruct (detectPolynomial_type s) as [H|H]; [exact H|].
  rewrite H in Hp. discriminate.
Qed.

Lemma detectorsRun_app xs ys :
  detectorsRun (xs ++ ys) = detectorsRun xs ++ detectorsRun ys.
Proof. unfold detectorsRun. apply flat_map_app. Qed.

Lemma detectorsRun_divisions (pairs : list (float * float)) :
  detectorsRun (map (fun p => Divide (fst p) (snd p)) pairs) = [].
Proof. induction pairs as [|p pairs IH]; [reflexivity|exact IH]. Qed.

Lemma detectGeometric_detectors s :
  detectorsRun (trace (detectGeometric s)) = [Geometric].
Proof.
  rewrite detectGeometric_trace. cbn [detectorsRun flat_map app].
  destruct (hasZero s); [reflexivity|].
  fold (detectorsRun (map (fun p => Divide (fst p) (snd p)) (adjacent s))).
  now rewrite detectorsRun_divisions.
Qed.

(* ================================================================= *)
(** ** Validation *)

(** C3, amended.  For every input that is not an array, is an array of
    fewer than 2 elements (empty slots counted), or holds an element that
    is not a number or is [NaN], [analyze] returns success=false with
    kind invalid and a non-empty error message, and no detector runs.
    Two kinds of input are not rejected: an infinite element is a number
    other than [NaN], and an empty slot of a sparse array holds no
    element for the validator to test; both pass validation. *)
Theorem malformed_input_is_invalid input :
  malformed input ->
  let run := analyze input in
  success (returned run) = Some false /\
  type (returned run) = Some invalid /\
  (exists msg, error (returned run) = Some msg /\ msg <> ""%string) /\
  trace run = [].
Proof.
  intros Hbad run. subst run.
  destruct (analyze_malformed input Hbad) as (msg & -> & Hmsg).
  repeat split. exists msg. split; [reflexivity|exact Hmsg].
Qed.

Lemma malformed_input_is_invalid_witness :
  let run := analyze (Arr [Num 1%float; Str "x"; Num 3%float]) in
  success (returned run) = Some false /\
  type (returned run) = Some invalid /\
  (exists msg, error (returned run) = Some msg /\ msg <> ""%string) /\
  trace run = [].
Proof.
  apply (malformed_input_is_invalid (Arr [Num 1%float; Str "x"; Num 3%float])).
  simpl. right. apply Exists_cons_tl, Exists_cons_hd. exact I.
Defined.

(** C3 as stated fails on an infinite element and on an empty slot:
    [analyze([1, Infinity])] holds a non-finite element, and
    [analyze([1, , 3])] and [analyze(new Array(5))] hold slots without a
    number, yet all three detectors run on each of them and the result
    is the unknown result, not the invalid one. *)
Lemma infinite_or_empty_slot_passes_validation :
  let run := analyze (nums [1; infinity]%float) in
  let slot := analyze (Arr [Num 1%float; Hole; Num 3%float]) in
  let empty := analyze (Arr [Hole; Hole; Hole; Hole; Hole]) in
  is_finite infinity = false /\
  type (returned run) = Some unknown /\
  trace run =
    [Run Arithmetic; Run Geometric; Divide infinity 1%float; Run Polynomial] /\
  type (returned slot) = Some unknown /\
  trace slot =
    [Run Arithmetic; Run Geometric; Divide nan 1%float; Divide 3%float nan;
     Run Polynomial] /\
  type (returned empty) = Some unknown /\
  detectorsRun (trace empty) = [Arithmetic; Geometric; Polynomial].
Proof. vm_compute. repeat split. Qed.

(** The same holds of every array with an empty slot that gets past
    validation: the detectors run and none accepts. *)
Lemma sparse_array_is_unknown elems :
  sparse elems ->
  type (returned (analyze (Arr elems))) = Some unknown /\
  detectorsRun (trace (analyze (Arr elems)))
    = [Arithmetic; Geometric; Polynomial].
Proof.
  intros Hsp. rewrite (analyze_sparse elems Hsp). split; [reflexivity|].
  cbn [trace fst].
  change (detectorsRun (Run Arithmetic :: ?t))
    with (Arithmetic :: detectorsRun t).
  now rewrite detectorsRun_app, detectGeometric_detectors.
Qed.

(** Validation decides the kind: the invalid result is returned on
    malformed input only. *)
Lemma invalid_iff_malformed input :
  type (returned (analyze input)) = Some invalid <-> malformed input.
Proof.
  split.
  - intros Hty.
    destruct (input_cases input)
      as [H|[(s & -> & Hv)|(elems & -> & Hsp)]]; [exact H| |].
    + rewrite (analyze_validated_type s Hv) in Hty.
      destruct (passesArithmetic s); [discriminate|].
      destruct (passesGeometric s); [discriminate|].
      destruct (truthy _); discriminate.
    + rewrite (analyze_sparse elems Hsp) in Hty. discriminate.
  - intros Hbad. destruct (analyze_malformed input Hbad) as (msg & -> & _).
    reflexivity.
Qed.

(* ================================================================= *)
(** ** The zero guard of the geometric detector *)

Lemma hasZero_In s z : In z s -> (z =? 0)%float = true -> hasZero s = true.
Proof.
  intros Hin Hz. apply existsb_exists. exists z. split; assumption.
Qed.

(** C8.  For every sequence containing an element exactly equal to zero,
    [analyze] never returns kind geometric, and no division is performed:
    the geometric detector returns before computing any ratio. *)
Theorem zero_element_never_geometric elems z :
  In (Num z) elems ->
  (z =? 0)%float = true ->
  let run := analyze (Arr elems) in
  type (returned run) <> Some geometric /\
  existsb isDivision (trace run) = false.
Proof.
  intros Hin Hz run. subst run.
  destruct (input_cases (Arr elems))
    as [Hbad|[(s & Heq & Hv)|(elems' & Heq & Hsp)]].
  - destruct (analyze_malformed _ Hbad) as (msg & -> & _).
    split; [discriminate|reflexivity].
  - injection Heq as ->.
    apply in_map_iff in Hin as (z' & Hz' & Hin). injection Hz' as ->.
    pose proof (hasZero_In s z Hin Hz) as Hzero.
    assert (Hgeo : passesGeometric s = false).
    { unfold passesGeometric. now rewrite Hzero. }
    fold (nums s). split.
    + rewrite (analyze_validated_type s Hv), Hgeo.
      destruct (passesArithmetic s); [discriminate|].
      destruct (truthy _); discriminate.
    + rewrite (analyze_validated_trace s Hv), Hgeo, detectGeometric_trace, Hzero.
      destruct (passesArithmetic s); reflexivity.
  - injection Heq as <-. rewrite (analyze_sparse elems Hsp).
    split; [discriminate|]. cbn [trace fst existsb isDivision orb].
    apply (in_map toNumber) in Hin. cbn [toNumber] in Hin.
    rewrite existsb_app, detectGeometric_trace,
      (hasZero_In _ z Hin Hz). reflexivity.
Qed.

Lemma zero_element_never_geometric_witness :
  let run := analyze (Arr [Num 1%float; Num 0%float; Num 2%float]) in
  type (returned run) <> Some geometric /\
  existsb isDivision (trace run) = false.
Proof.
  apply (zero_element_never_geometric
           [Num 1%float; Num 0%float; Num 2%float] 0%float).
  - simpl. right. left. reflexivity.
  - vm_compute. reflexivity.
Defined.

(** Whatever division the geometric detector performs has a divisor
    different from zero. *)
Lemma detectGeometric_divisors s :
  existsb dividesByZero (trace (detectGeometric s)) = false.
Proof.
  rewrite detectGeometric_trace. cbn [existsb dividesByZero orb].
  destruct (hasZero s) eqn:Hzero; [reflexivity|].
  apply not_true_is_false. intros Hex.
  apply existsb_exists in Hex as (e & Hin & He).
  apply in_map_iff in Hin as ([a b] & <- & Hin).
  unfold adjacent in Hin. apply in_map_iff in Hin as (i & Hp & Hi).
  injection Hp as _ <-. apply in_seq in Hi. cbn [dividesByZero snd] in He.
  assert (Hmem : In (at_ s (i - 1)) s) by (apply nth_In; lia).
  assert (hasZero s = true) by (eapply hasZero_In; eassumption).
  congruence.
Qed.

(** On every input, whatever division [analyze] performs has a divisor
    different from zero. *)
Lemma divisors_are_nonzero input :
  existsb dividesByZero (trace (analyze input)) = false.
Proof.
  destruct (input_cases input)
    as [Hbad|[(s & -> & Hv)|(elems & -> & Hsp)]].
  - destruct (analyze_malformed _ Hbad) as (msg & -> & _). reflexivity.
  - rewrite (analyze_validated_trace s Hv). cbn [existsb dividesByZero orb].
    destruct (passesArithmetic s); [reflexivity|].
    rewrite existsb_app, detectGeometric_divisors.
    destruct (passesGeometric s); reflexivity.
  - rewrite (analyze_sparse elems Hsp).
    cbn [trace fst existsb dividesByZero orb].
    rewrite existsb_app, detectGeometric_divisors. reflexivity.
Qed.

(* ================================================================= *)
(** ** Multi-step prediction *)


Lemma predictMultiple_returned input count :
  returned (predictMultiple input count) =
    let analysis := returned (analyze input) in
    if truthy (success analysis) then
      let state := returned (predictLoop count [] (spread input)) in
      mkResult (success analysis) (isValid analysis) (type analysis)
        (error analysis) (pattern analysis) (parameters analysis)
        (prediction analysis) (confidence analysis)
        (Result.sequence analysis) (Some (fst state)) (Some (snd state))
    else analysis.
Proof.
  unfold predictMultiple. rewrite returned_bind. cbv zeta.
  destruct (truthy (success (returned (analyze input)))); cbn [negb];
    [|reflexivity].
  rewrite returned_bind.
  destruct (returned (predictLoop count [] (spread input))); reflexivity.
Qed.



(* ================================================================= *)
(** ** The difference engine *)

(** After the arithmetic test has failed, a success of the polynomial
    detector has a degree from 2 to 4: level 1 is the list of differences
    the arithmetic detector tested, with the same test. *)
Lemma detectPolynomial_after_arithmetic s :
  passesArithmetic s = false ->
  truthy (isValid (returned (detectPolynomial s))) = true ->
  exists degree,
    2 <= degree <= 4 /\
    returned (detectPolynomial s) =
      detected polynomial (polynomialName degree)
        (PolynomialParams degree (differenceTable s degree))
        (predictFromDifferences (differenceTable s degree)) 0.9%float s /\
    constantLevel (levelAt s degree) = true /\
    (forall j, 0 < j < degree -> constantLevel (levelAt s j) = false) /\
    (forall j, j < degree -> 1 < length (levelAt s j)).
Proof.
  intros Harith Hp.
  destruct (detectPolynomial_success s Hp)
    as (k & Hk & Hres & Hlast & Hfirst & Hlen).
  destruct k as [|k].
  { exfalso. unfold constantLevel in Hlast. cbn [levelAt] in Hlast.
    apply andb_prop in Hlast as [_ Hlast].
    unfold passesArithmetic, meanGap in Harith. congruence. }
  exists (S (S k)). split; [lia|]. split; [exact Hres|].
  split; [exact Hlast|]. split.
  - intros [|j] Hj; [lia|]. apply Hfirst. lia.
  - intros j Hj. apply Hlen. lia.
Qed.

(** C10.  For every input, [analyze] never returns a polynomial result
    of degree 1: a first difference level that passes the constancy test
    is claimed by the arithmetic detector, which runs first and applies
    the same test. *)
Theorem polynomial_degree_one_unreachable input :
  isLinearPolynomial (returned (analyze input)) = false.
Proof.
  destruct (input_cases input)
    as [Hbad|[(s & -> & Hv)|(elems & -> & Hsp)]].
  { destruct (analyze_malformed _ Hbad) as (msg & -> & _). reflexivity. }
  2:{ rewrite (analyze_sparse elems Hsp). reflexivity. }
  destruct (analyze_validated s Hv)
    as [(_ & ->)|[(_ & _ & ->)|[(Harith & _ & Hp & ->)|(_ & _ & _ & ->)]]];
    try reflexivity.
  destruct (detectPolynomial_after_arithmetic s Harith Hp)
    as (degree & Hdeg & -> & _).
  unfold isLinearPolynomial, degreeOf. cbn [detected type parameters].
  destruct degree as [|[|degree]]; [lia|lia|reflexivity].
Qed.

(** *** Forward extension *)

Lemma setAt_length {A} i (x : A) l : length (setAt i x l) = length l.
Proof.
  revert i. induction l as [|h t IH]; intros [|i]; cbn; try reflexivity.
  now rewrite IH.
Qed.

Lemma setAt_nth_same {A} i (x d : A) l :
  i < length l -> nth i (setAt i x l) d = x.
Proof.
  revert i. induction l as [|h t IH]; intros [|i] Hi; cbn in *; try lia.
  - reflexivity.
  - apply IH. lia.
Qed.

Lemma setAt_nth_other {A} i j (x d : A) l :
  i <> j -> nth j (setAt i x l) d = nth j l d.
Proof.
  revert i j. induction l as [|h t IH]; intros [|i] [|j] Hij; cbn;
    try reflexivity; try lia.
  apply IH. lia.
Qed.

Lemma lastOf_push xs x : lastOf (xs ++ [x]) = x.
Proof.
  unfold lastOf, at_. rewrite length_app. cbn [length].
  replace (length xs + 1 - 1) with (length xs) by lia.
  apply nth_middle.
Qed.

Lemma skipn_nth {A} j (l : list A) d :
  j < length l -> skipn j l = nth j l d :: skipn (S j) l.
Proof.
  revert j. induction l as [|h t IH]; intros [|j] Hj; cbn in *; try lia.
  - reflexivity.
  - apply IH. lia.
Qed.

Lemma appended_skipn levels j :
  S j < length levels ->
  appended (skipn j levels)
  = (lastOf (nth j levels []) + appended (skipn (S j) levels))%float.
Proof.
  intros Hj. rewrite (skipn_nth j levels []) by lia.
  rewrite (skipn_nth (S j) levels []) by lia. reflexivity.
Qed.

Section ForwardExtension.

(** The table handed to [predictFromDifferences]: no empty level. *)
Variable diffLevels : list (list float).
Hypothesis levels_nonempty : forall k, k < length diffLevels ->
  nth k diffLevels [] <> [].

Lemma extendStep_invariant j extendedLevels :
  S j < length diffLevels ->
  extendedDownTo diffLevels (S j) extendedLevels ->
  extendedDownTo diffLevels j (extendStep extendedLevels (S j)).
Proof.
  intros Hj (Hlen & Hkeep & Hne & Hlast). unfold extendStep.
  destruct (nth (S j) extendedLevels []) as [|v current] eqn:Hcur;
    [contradiction|].
  cbn [length Nat.ltb Nat.leb]. replace (S j - 1) with j by lia.
  set (lastValue := lastOf (v :: current)) in *.
  rewrite (Hkeep j) by lia.
  repeat split.
  - now rewrite !setAt_length.
  - intros k Hk. rewrite !setAt_nth_other by lia. apply Hkeep. lia.
  - rewrite setAt_nth_same by (rewrite setAt_length; lia).
    now destruct (nth j diffLevels []).
  - rewrite setAt_nth_same by (rewrite setAt_length; lia).
    rewrite lastOf_push, Hlast. symmetry. now apply appended_skipn.
Qed.

Lemma extendLoop_result j : forall extendedLevels,
  j < length diffLevels ->
  extendedDownTo diffLevels j extendedLevels ->
  lastOf (nth 0 (fold_left extendStep (rev (seq 1 j)) extendedLevels) [])
  = appended diffLevels.
Proof.
  induction j as [|j IH]; intros ext Hj Hinv.
  - destruct Hinv as (_ & _ & _ & Hlast). exact Hlast.
  - rewrite seq_S, rev_app_distr. cbn [rev app fold_left Nat.add].
    apply IH; [lia|]. now apply extendStep_invariant.
Qed.

(** Reconstruction computes the value appended at level 0. *)
Lemma predictFromDifferences_appended :
  diffLevels <> [] ->
  predictFromDifferences diffLevels = appended diffLevels.
Proof.
  intros Hne. unfold predictFromDifferences, extendLevels. rewrite map_id.
  assert (Hlen : 0 < length diffLevels).
  { destruct diffLevels; [contradiction|cbn; lia]. }
  apply extendLoop_result; [lia|].
  repeat split.
  - apply levels_nonempty. lia.
  - rewrite (skipn_nth (length diffLevels - 1) diffLevels []) by lia.
    replace (S (length diffLevels - 1)) with (length diffLevels) by lia.
    now rewrite skipn_all.
Qed.

End ForwardExtension.

Lemma differenceTable_nonempty s degree :
  (forall j, j < degree -> 1 < length (levelAt s j)) ->
  constantLevel (levelAt s degree) = true ->
  forall j, j < length (differenceTable s degree) ->
  nth j (differenceTable s degree) [] <> [].
Proof.
  intros Hlen Hlast j Hj. rewrite differenceTable_length in Hj.
  rewrite differenceTable_nth by lia.
  destruct (Nat.eq_dec j degree) as [->|Hne].
  - apply andb_prop in Hlast as [Hpos _]. apply Nat.ltb_lt in Hpos.
    intros Heq. rewrite Heq in Hpos. inversion Hpos.
  - assert (Hj' : 1 < length (levelAt s j)) by (apply Hlen; lia).
    intros Heq. rewrite Heq in Hj'. cbn in Hj'. lia.
Qed.

(** C7, amended.  Whenever [analyze] succeeds with kind polynomial, the
    returned parameters hold the detected degree (from 2 to 4) and the
    difference table as built: level 0 is the input sequence, each next
    level holds the consecutive differences of the previous one, down to
    the level of the detected degree, which is the first constant one.
    The levels in the result are not extended; the extension is made on a
    copy.  The returned prediction is the value the forward extension
    appends at level 0, where the constant level's appended value repeats
    its last value and each shallower level's appended value is its own
    last value plus the next-deeper level's appended value. *)
Theorem polynomial_result_table input :
  type (returned (analyze input)) = Some polynomial ->
  exists s degree,
    input = nums s /\ validated s /\
    2 <= degree <= 4 /\
    parameters (returned (analyze input))
      = Some (PolynomialParams degree (differenceTable s degree)) /\
    constantLevel (levelAt s degree) = true /\
    (forall j, 0 < j < degree -> constantLevel (levelAt s j) = false) /\
    prediction (returned (analyze input))
      = Some (appended (differenceTable s degree)).
Proof.
  intros Hty.
  destruct (input_cases input)
    as [Hbad|[(s & -> & Hv)|(elems & -> & Hsp)]].
  { apply invalid_iff_malformed in Hbad. congruence. }
  2:{ rewrite (analyze_sparse elems Hsp) in Hty. discriminate. }
  exists s.
  destruct (analyze_validated s Hv)
    as [(_ & Hr)|[(_ & _ & Hr)|[(Harith & _ & Hp & Hr)|(_ & _ & _ & Hr)]]];
    rewrite Hr in Hty |- *; try discriminate.
  destruct (detectPolynomial_after_arithmetic s Harith Hp)
    as (degree & Hdeg & Hres & Hlast & Hfirst & Hlen).
  rewrite Hres. exists degree.
  split; [reflexivity|]. split; [exact Hv|]. split; [exact Hdeg|].
  split; [reflexivity|]. split; [exact Hlast|]. split; [exact Hfirst|].
  cbn [detected prediction]. f_equal.
  apply predictFromDifferences_appended.
  - now apply differenceTable_nonempty.
  - destruct degree; discriminate.
Qed.

Lemma polynomial_result_table_witness :
  exists s degree,
    nums [1; 4; 9; 16; 25]%float = nums s /\ validated s /\
    2 <= degree <= 4 /\
    parameters (returned (analyze (nums [1; 4; 9; 16; 25]%float)))
      = Some (PolynomialParams degree (differenceTable s degree)) /\
    constantLevel (levelAt s degree) = true /\
    (forall j, 0 < j < degree -> constantLevel (levelAt s j) = false) /\
    prediction (returned (analyze (nums [1; 4; 9; 16; 25]%float)))
      = Some (appended (differenceTable s degree)).
Proof.
  apply (polynomial_result_table (nums [1; 4; 9; 16; 25]%float)).
  vm_compute. reflexivity.
Defined.

(** C7 as stated fails on the table: for [[1,4,9,16,25]] the result holds
    the three levels as built, without the appended values, while the
    prediction is 36.  The extension is made on a copy, shown last. *)
Lemma returned_table_is_not_extended :
  let r := returned (analyze (nums [1; 4; 9; 16; 25]%float)) in
  type r = Some polynomial /\
  prediction r = Some 36%float /\
  tableOf r = Some [[1; 4; 9; 16; 25]; [3; 5; 7; 9]; [2; 2; 2]]%float /\
  extendLevels [[1; 4; 9; 16; 25]; [3; 5; 7; 9]; [2; 2; 2]]%float
    = [[1; 4; 9; 16; 25; 36]; [3; 5; 7; 9; 11; 11]; [2; 2; 2; 2]]%float.
Proof. vm_compute. repeat split. Qed.

(** The polynomial detector declines when none of the difference levels
    1 to 4 is constant (a first constant level 5 gives degree 5, which
    is refused as well). *)
Lemma detectPolynomial_declines s :
  (forall j, 1 <= j <= 4 -> constantLevel (levelAt s j) = false) ->
  returned (detectPolynomial s) = declined.
Proof.
  intros Hnone.
  destruct (truthy (isValid (returned (detectPolynomial s)))) eqn:Hp.
  - destruct (detectPolynomial_success s Hp) as (k & Hk & _ & Hlast & _).
    rewrite Hnone in Hlast by lia. discriminate.
  - destruct (detectPolynomial_type s) as [Hty|Hdecl]; [|exact Hdecl].
    revert Hp Hty. rewrite detectPolynomial_returned.
    destruct (length s <? 4); [discriminate|].
    destruct (levelLoop 5 0 [s] s) as [levels degree].
    destruct (_ && _); discriminate.
Qed.

(* ================================================================= *)
(** ** Binary64 facts

    The primitive operations are specified by [FloatAxioms] against the
    executable model [SpecFloat]; the facts below are derived from that
    specification. *)

Section Binary64.

Open Scope Z_scope.

(** A finite number is a signed zero or a bounded mantissa and exponent. *)
Lemma finite_cases d :
  is_finite d = true ->
  (exists s, Prim2SF d = S754_zero s) \/
  (exists s m e, Prim2SF d = S754_finite s m e /\ bounded prec emax m e = true).
Proof.
  intros Hfin. pose proof (Prim2SF_valid d) as Hvalid.
  unfold is_finite, is_nan, is_infinity in Hfin.
  rewrite !FloatAxioms.eqb_spec, FloatAxioms.abs_spec in Hfin.
  destruct (Prim2SF d) as [s|s| |s m e].
  - left. now exists s.
  - exfalso. destruct s; cbn in Hfin; discriminate.
  - exfalso. cbn in Hfin. discriminate.
  - right. exists s, m, e. split; [reflexivity|exact Hvalid].
Qed.

Lemma div_eucl_exact a b q :
  0 < b -> a = q * b -> Z.div_eucl a b = (q, 0).
Proof.
  intros Hb ->. pose proof (Z.div_mul q b ltac:(lia)) as Hq.
  pose proof (Z.mod_mul q b ltac:(lia)) as Hr.
  unfold Z.div in Hq. unfold Z.modulo in Hr.
  destruct (Z.div_eucl (q * b) b) as [q' r']. now subst.
Qed.

Lemma digits2_double m : digits2_pos (m~0) = Pos.succ (digits2_pos m).
Proof. reflexivity. Qed.

(** Division by 1 is exact: no rounding, no change of exponent. *)
Lemma SFdiv_one s m e :
  bounded prec emax m e = true ->
  SFdiv prec emax (S754_finite s m e) oneSF = S754_finite s m e.
Proof.
  intros Hb. unfold bounded, canonical_mantissa, fexp, emin, prec, emax in Hb.
  apply andb_prop in Hb as [Hcan Hmax].
  apply Z.eqb_eq in Hcan. apply Z.leb_le in Hmax.
  unfold SFdiv, oneSF, SFdiv_core_binary. cbn [Zdigits2].
  change (Z.pos (digits2_pos 4503599627370496)) with 53.
  rewrite xorb_false_r. unfold fexp, emin, prec, emax.
  destruct (Z.eq_dec e (-1074)) as [He|He].
  - (* the smallest exponent: the quotient is the mantissa itself *)
    replace (Z.min _ _) with e by lia.
    replace (e - -52 - e) with 52 by lia.
    rewrite (div_eucl_exact _ _ (Z.pos m));
      [|lia|now rewrite Z.shiftl_mul_pow2].
    change (new_location 4503599627370496 0) with loc_Exact.
    unfold binary_round_aux, shr_fexp, fexp, emin.
    cbn [Zdigits2 shr_record_of_loc].
    replace (Z.max (Z.pos (digits2_pos m) + e - 53) (3 - 1024 - 53) - e)
      with 0 by lia.
    cbn [shr shr_m loc_of_shr_record round_nearest_even Zdigits2
         shr_record_of_loc].
    replace (Z.max (Z.pos (digits2_pos m) + e - 53) (3 - 1024 - 53) - e)
      with 0 by lia.
    cbn [shr shr_m].
    destruct (Z.leb_spec e (1024 - 53)); [reflexivity|lia].
  - (* above it: the quotient is twice the mantissa, shifted back once *)
    replace (Z.min _ _) with (e - 1) by lia.
    replace (e - -52 - (e - 1)) with 53 by lia.
    rewrite (div_eucl_exact _ _ (Z.pos m~0));
      [|lia|rewrite Z.shiftl_mul_pow2; lia].
    change (new_location 4503599627370496 0) with loc_Exact.
    unfold binary_round_aux, shr_fexp, fexp, emin.
    cbn [Zdigits2 shr_record_of_loc].
    rewrite digits2_double, Pos2Z.inj_succ.
    replace (Z.max (Z.succ (Z.pos (digits2_pos m)) + (e - 1) - 53)
               (3 - 1024 - 53) - (e - 1)) with 1 by lia.
    cbn [shr SpecFloat.iter_pos shr_1 orb shr_m loc_of_shr_record
         round_nearest_even Zdigits2 shr_record_of_loc].
    replace (e - 1 + 1) with e by lia.
    replace (Z.max (Z.pos (digits2_pos m) + e - 53) (3 - 1024 - 53) - e)
      with 0 by lia.
    cbn [shr shr_m].
    destruct (Z.leb_spec e (1024 - 53)); [reflexivity|lia].
Qed.

Lemma SFsub_diag s m e :
  SFsub prec emax (S754_finite s m e) (S754_finite s m e) = S754_zero false.
Proof. unfold SFsub. now rewrite Z.sub_diag. Qed.

(** A single finite value is within the tolerance of its own mean:
    [|d - (0 + d) / 1| < 0.0001]. *)
Lemma finite_single_mean d :
  is_finite d = true -> within d (average [d]) = true.
Proof.
  intros Hfin. unfold within, average, sum, tolerance. cbn [fold_left length].
  change (ofLength 1) with 1%float.
  rewrite FloatAxioms.ltb_spec, FloatAxioms.abs_spec, FloatAxioms.sub_spec,
    FloatAxioms.div_spec, FloatAxioms.add_spec.
  change (Prim2SF 0) with (S754_zero false).
  change (Prim2SF 1) with oneSF.
  change (Prim2SF 0.0001) with (S754_finite false 7378697629483821 (-66)).
  unfold SF64sub, SF64div, SF64add.
  destruct (finite_cases d Hfin) as [(s & ->)|(s & m & e & -> & Hb)].
  - destruct s; reflexivity.
  - cbn [SFadd]. rewrite (SFdiv_one s m e Hb), SFsub_diag. reflexivity.
Qed.

(** Doubling a number: the exponent goes up by one, or the mantissa is
    doubled below the smallest normal number; the largest exponent
    overflows. *)
Lemma SFadd_diag s m e :
  bounded prec emax m e = true ->
  SFadd prec emax (S754_finite s m e) (S754_finite s m e) =
    if Z.pos (digits2_pos m) =? 53 then
      if e + 1 <=? 971 then S754_finite s m (e + 1) else S754_infinity s
    else S754_finite s m~0 e.
Proof.
  intros Hb. unfold bounded, canonical_mantissa, fexp, emin, prec, emax in Hb.
  apply andb_prop in Hb as [Hcan Hmax].
  apply Z.eqb_eq in Hcan. apply Z.leb_le in Hmax.
  unfold SFadd. cbv zeta. rewrite Z.min_id.
  unfold shl_align. rewrite Z.sub_diag. cbn [fst].
  assert (Hsum : cond_Zopp s (Z.pos m) + cond_Zopp s (Z.pos m)
                 = cond_Zopp s (Z.pos m~0)).
  { destruct s; cbn [cond_Zopp Z.opp Z.add]; now rewrite Pos.add_diag. }
  rewrite Hsum.
  assert (Hround : binary_normalize prec emax (cond_Zopp s (Z.pos m~0)) e false
                   = binary_round prec emax s m~0 e).
  { destruct s; reflexivity. }
  rewrite Hround. unfold binary_round, shl_align, fexp, emin, prec, emax.
  rewrite digits2_double, Pos2Z.inj_succ.
  pose proof (Pos2Z.is_pos (digits2_pos m)) as Hd.
  destruct (Z.eqb_spec (Z.pos (digits2_pos m)) 53) as [H53|H53].
  - rewrite H53 in *.
    replace (Z.max (Z.succ 53 + e - 53) (3 - 1024 - 53) - e) with 1 by lia.
    unfold binary_round_aux, shr_fexp, fexp, emin.
    cbn [Zdigits2 shr_record_of_loc].
    rewrite digits2_double, Pos2Z.inj_succ, H53.
    replace (Z.max (Z.succ 53 + e - 53) (3 - 1024 - 53) - e) with 1 by lia.
    cbn [shr SpecFloat.iter_pos shr_1 orb shr_m loc_of_shr_record
         round_nearest_even Zdigits2 shr_record_of_loc].
    rewrite H53.
    replace (Z.max (53 + (e + 1) - 53) (3 - 1024 - 53) - (e + 1)) with 0 by lia.
    cbn [shr shr_m]. reflexivity.
  - assert (He : e = -1074) by lia. subst e.
    assert (Hlt : Z.pos (digits2_pos m) < 53) by lia.
    replace (Z.max (Z.succ (Z.pos (digits2_pos m)) + -1074 - 53)
               (3 - 1024 - 53) - -1074) with 0 by lia.
    unfold binary_round_aux, shr_fexp, fexp, emin.
    cbn [Zdigits2 shr_record_of_loc].
    rewrite digits2_double, Pos2Z.inj_succ.
    replace (Z.max (Z.succ (Z.pos (digits2_pos m)) + -1074 - 53)
               (3 - 1024 - 53) - -1074) with 0 by lia.
    cbn [shr shr_m loc_of_shr_record round_nearest_even Zdigits2
         shr_record_of_loc].
    rewrite digits2_double, Pos2Z.inj_succ.
    replace (Z.max (Z.succ (Z.pos (digits2_pos m)) + -1074 - 53)
               (3 - 1024 - 53) - -1074) with 0 by lia.
    cbn [shr shr_m]. reflexivity.
Qed.

(** Halving a number that was doubled is exact. *)
Lemma SFdiv_two s m e :
  bounded prec emax m e = true ->
  SFdiv prec emax
    (if Z.pos (digits2_pos m) =? 53 then S754_finite s m (e + 1)
     else S754_finite s m~0 e) twoSF
  = S754_finite s m e.
Proof.
  intros Hb. unfold bounded, canonical_mantissa, fexp, emin, prec, emax in Hb.
  apply andb_prop in Hb as [Hcan Hmax].
  apply Z.eqb_eq in Hcan. apply Z.leb_le in Hmax.
  pose proof (Pos2Z.is_pos (digits2_pos m)) as Hd.
  destruct (Z.eqb_spec (Z.pos (digits2_pos m)) 53) as [H53|H53].
  - unfold SFdiv, twoSF, SFdiv_core_binary. cbn [Zdigits2].
    change (Z.pos (digits2_pos 4503599627370496)) with 53.
    rewrite xorb_false_r. unfold fexp, emin, prec, emax. rewrite H53.
    destruct (Z.eq_dec e (-1074)) as [He|He].
    + replace (Z.min _ _) with e by lia.
      replace (e + 1 - -51 - e) with 52 by lia.
      rewrite (div_eucl_exact _ _ (Z.pos m));
        [|lia|now rewrite Z.shiftl_mul_pow2].
      change (new_location 4503599627370496 0) with loc_Exact.
      unfold binary_round_aux, shr_fexp, fexp, emin.
      cbn [Zdigits2 shr_record_of_loc].
      replace (Z.max (Z.pos (digits2_pos m) + e - 53) (3 - 1024 - 53) - e)
        with 0 by lia.
      cbn [shr shr_m loc_of_shr_record round_nearest_even Zdigits2
           shr_record_of_loc].
      replace (Z.max (Z.pos (digits2_pos m) + e - 53) (3 - 1024 - 53) - e)
        with 0 by lia.
      cbn [shr shr_m].
      destruct (Z.leb_spec e (1024 - 53)); [reflexivity|lia].
    + replace (Z.min _ _) with (e - 1) by lia.
      replace (e + 1 - -51 - (e - 1)) with 53 by lia.
      rewrite (div_eucl_exact _ _ (Z.pos m~0));
        [|lia|rewrite Z.shiftl_mul_pow2; lia].
      change (new_location 4503599627370496 0) with loc_Exact.
      unfold binary_round_aux, shr_fexp, fexp, emin.
      cbn [Zdigits2 shr_record_of_loc].
      rewrite digits2_double, Pos2Z.inj_succ.
      replace (Z.max (Z.succ (Z.pos (digits2_pos m)) + (e - 1) - 53)
                 (3 - 1024 - 53) - (e - 1)) with 1 by lia.
      cbn [shr SpecFloat.iter_pos shr_1 orb shr_m loc_of_shr_record
           round_nearest_even Zdigits2 shr_record_of_loc].
      replace (e - 1 + 1) with e by lia.
      replace (Z.max (Z.pos (digits2_pos m) + e - 53) (3 - 1024 - 53) - e)
        with 0 by lia.
      cbn [shr shr_m].
      destruct (Z.leb_spec e (1024 - 53)); [reflexivity|lia].
  - assert (He : e = -1074) by lia. subst e.
    assert (Hlt : Z.pos (digits2_pos m) < 53) by lia.
    unfold SFdiv, twoSF, SFdiv_core_binary. cbn [Zdigits2].
    change (Z.pos (digits2_pos 4503599627370496)) with 53.
    rewrite xorb_false_r. unfold fexp, emin, prec, emax.
    rewrite digits2_double, Pos2Z.inj_succ.
    replace (Z.min _ _) with (-1074) by lia.
    replace (-1074 - -51 - -1074) with 51 by lia.
    rewrite (div_eucl_exact _ _ (Z.pos m));
      [|lia|rewrite Z.shiftl_mul_pow2; lia].
    change (new_location 4503599627370496 0) with loc_Exact.
    unfold binary_round_aux, shr_fexp, fexp, emin.
    cbn [Zdigits2 shr_record_of_loc].
    replace (Z.max (Z.pos (digits2_pos m) + -1074 - 53) (3 - 1024 - 53) - -1074)
      with 0 by lia.
    cbn [shr shr_m loc_of_shr_record round_nearest_even Zdigits2
         shr_record_of_loc].
    replace (Z.max (Z.pos (digits2_pos m) + -1074 - 53) (3 - 1024 - 53) - -1074)
      with 0 by lia.
    cbn [shr shr_m]. reflexivity.
Qed.

(** The mean of one or two copies of a number [r] with [|r| > 1e-4] and
    [2r] finite is [r] itself: the sum [0 + r] or [0 + r + r] and the
    division by the count are exact. *)
Lemma short_constant_mean r n :
  (1 <= n <= 2)%nat ->
  is_finite (r + r)%float = true ->
  (tolerance <? abs r)%float = true ->
  average (repeat r n) = r /\ within r r = true.
Proof.
  intros Hn Hfin Htol.
  assert (Hr : exists s m e,
             Prim2SF r = S754_finite s m e /\ bounded prec emax m e = true /\
             SFadd prec emax (S754_finite s m e) (S754_finite s m e)
             = if Z.pos (digits2_pos m) =? 53 then S754_finite s m (e + 1)
               else S754_finite s m~0 e).
  { pose proof (Prim2SF_valid r) as Hvalid.
    destruct (finite_cases _ Hfin) as [(z & Hsum)|(z & mz & ez & Hsum & _)];
      rewrite FloatAxioms.add_spec in Hsum; unfold SF64add in Hsum;
      rewrite FloatAxioms.ltb_spec, FloatAxioms.abs_spec in Htol;
      destruct (Prim2SF r) as [s|s| |s m e];
      try (destruct s; discriminate); try discriminate;
      exists s, m, e; (split; [reflexivity|]); (split; [exact Hvalid|]);
      rewrite (SFadd_diag s m e Hvalid) in Hsum |- *;
      destruct (Z.pos (digits2_pos m) =? 53); try discriminate;
      try reflexivity;
      destruct (e + 1 <=? 971); try discriminate; reflexivity. }
  destruct Hr as (s & m & e & Hr & Hb & Hsum).
  split.
  - apply Prim2SF_inj. unfold average, sum.
    assert (Hcases : n = 1%nat \/ n = 2%nat) by lia.
    destruct Hcases as [-> | ->]; cbn [repeat fold_left length].
    + change (ofLength 1) with 1%float.
      rewrite FloatAxioms.div_spec, FloatAxioms.add_spec, Hr.
      change (Prim2SF 0) with (S754_zero false).
      change (Prim2SF 1) with oneSF.
      unfold SF64div, SF64add. cbn [SFadd]. now apply SFdiv_one.
    + change (ofLength 2) with 2%float.
      rewrite FloatAxioms.div_spec, !FloatAxioms.add_spec, Hr.
      change (Prim2SF 0) with (S754_zero false).
      change (Prim2SF 2) with twoSF.
      unfold SF64div, SF64add.
      change (SFadd prec emax (S754_zero false) (S754_finite s m e))
        with (S754_finite s m e).
      rewrite Hsum. now apply SFdiv_two.
  - unfold within, tolerance.
    rewrite FloatAxioms.ltb_spec, FloatAxioms.abs_spec, FloatAxioms.sub_spec, Hr.
    change (Prim2SF 0.0001) with (S754_finite false 7378697629483821 (-66)).
    unfold SF64sub. rewrite SFsub_diag. reflexivity.
Qed.

End Binary64.

(* ================================================================= *)
(** ** The arithmetic detector *)

(** C2, amended.  For every validated sequence, [analyze] classifies it
    as arithmetic if and only if every consecutive difference
    [d_i = s[i+1] - s[i]] differs from the mean difference by strictly
    less than 1e-4; on success the prediction is [s[last]] plus the mean,
    the parameters are the mean and [s[0]], and the confidence is 1.  A
    validated sequence of length 2 is classified arithmetic whenever its
    single difference is finite. *)
Theorem arithmetic_detection s :
  validated s ->
  let r := returned (analyze (nums s)) in
  (type r = Some arithmetic <->
   forall i, i < length s - 1 -> within (gap s i) (meanGap s) = true) /\
  (type r = Some arithmetic ->
   success r = Some true /\
   prediction r = Some (lastOf s + meanGap s)%float /\
   parameters r = Some (ArithmeticParams (meanGap s) (at_ s 0)) /\
   confidence r = Some 1%float) /\
  (length s = 2 -> is_finite (gap s 0) = true -> type r = Some arithmetic).
Proof.
  intros Hv r.
  assert (Hiff : type r = Some arithmetic <-> passesArithmetic s = true).
  { subst r. rewrite (analyze_validated_type s Hv).
    destruct (passesArithmetic s); [tauto|].
    destruct (passesGeometric s); [split; discriminate|].
    destruct (truthy _); split; discriminate. }
  split; [|split].
  - rewrite Hiff. apply isConstant_gaps.
  - intros Hty. apply Hiff in Hty. subst r.
    destruct (analyze_validated s Hv)
      as [(_ & ->)|[(H & _)|[(H & _)|(H & _)]]]; try congruence.
    repeat split.
  - intros Hlen Hfin. apply Hiff. unfold passesArithmetic, meanGap.
    destruct s as [|a [|b [|c s]]]; try discriminate.
    unfold gaps. cbn [length Nat.sub seq map isConstant forallb].
    fold (within (gap [a; b] 0) (average [gap [a; b] 0])).
    now rewrite finite_single_mean.
Qed.

Lemma arithmetic_detection_witness :
  let s := [1; 3]%float in
  let r := returned (analyze (nums s)) in
  (type r = Some arithmetic <->
   forall i, i < length s - 1 -> within (gap s i) (meanGap s) = true) /\
  (type r = Some arithmetic ->
   success r = Some true /\
   prediction r = Some (lastOf s + meanGap s)%float /\
   parameters r = Some (ArithmeticParams (meanGap s) (at_ s 0)) /\
   confidence r = Some 1%float) /\
  (length s = 2 -> is_finite (gap s 0) = true -> type r = Some arithmetic).
Proof.
  apply (arithmetic_detection [1; 3]%float).
  split; [simpl; lia|]. repeat constructor.
Defined.

(** C2 as stated fails in two places.  In [[0, 0.0001, 0]] both
    differences differ from their mean 0 by exactly the tolerance, which
    is "at most 1e-4", yet the sequence is not classified arithmetic.
    In [[-1e308, 1e308]], of length 2 with finite elements, the
    difference overflows to infinity and the sequence is classified
    geometric. *)
Lemma arithmetic_claim_counterexamples :
  let edge := [0; 0.0001; 0]%float in
  let wide := [-1e308; 1e308]%float in
  forallb (fun i => atMost (gap edge i) (meanGap edge)) (seq 0 2) = true /\
  type (returned (analyze (nums edge))) = Some unknown /\
  forallb is_finite wide = true /\
  gap wide 0 = infinity /\
  type (returned (analyze (nums wide))) = Some geometric.
Proof. vm_compute. repeat split. Qed.

(* ================================================================= *)
(** ** The geometric detector *)

Lemma constant_quotients s r :
  (forall i, i < length s - 1 -> quotient s i = r) ->
  quotients s = repeat r (length s - 1).
Proof.
  intros Hall. unfold quotients.
  assert (Hgen : forall n start,
            (forall i, start <= i < start + n -> quotient s i = r) ->
            map (quotient s) (seq start n) = repeat r n).
  { induction n as [|n IH]; intros start Hin; [reflexivity|].
    cbn [seq map repeat]. rewrite Hin by lia. f_equal.
    apply IH. intros i Hi. apply Hin. lia. }
  apply Hgen. intros i Hi. apply Hall. lia.
Qed.

Lemma isConstant_repeat r n avg :
  isConstant (repeat r (S n)) avg = within r avg.
Proof.
  unfold isConstant. induction n as [|n IH].
  - cbn [repeat forallb]. fold (within r avg). apply andb_true_r.
  - change (repeat r (S (S n))) with (r :: repeat r (S n)).
    cbn [forallb]. rewrite IH. fold (within r avg). apply andb_diag.
Qed.

(** C4, amended.  For every validated sequence with no zero element that
    the arithmetic test rejects and whose consecutive ratios
    [s[i+1] / s[i]] all equal one constant [r], let [mean] be the
    computed mean of the ratios, which is the mean of [length s - 1]
    copies of [r].  [analyze] returns kind geometric if and only if
    [|r - mean| < 1e-4] and [|mean| > 1e-4]; the prediction is then
    [s[last] * mean] and the reported ratio is [mean].  For sequences of
    2 or 3 values with [|r| > 1e-4] and [2r] finite the mean is [r]
    exactly, so [analyze] returns kind geometric with the prediction
    [s[last] * r]. *)
Theorem geometric_detection s r :
  validated s ->
  hasZero s = false ->
  passesArithmetic s = false ->
  (forall i, i < length s - 1 -> quotient s i = r) ->
  let res := returned (analyze (nums s)) in
  let mean := average (repeat r (length s - 1)) in
  (type res = Some geometric <->
   within r mean = true /\ (tolerance <? abs mean)%float = true) /\
  (type res = Some geometric ->
   success res = Some true /\
   prediction res = Some (lastOf s * mean)%float /\
   parameters res = Some (GeometricParams mean (at_ s 0)) /\
   confidence res = Some 1%float) /\
  (length s <= 3 ->
   (tolerance <? abs r)%float = true ->
   is_finite (r + r)%float = true ->
   mean = r /\
   type res = Some geometric /\
   prediction res = Some (lastOf s * r)%float).
Proof.
  intros Hv Hzero Harith Hall res mean.
  assert (Hmean : meanQuotient s = mean).
  { unfold meanQuotient. now rewrite (constant_quotients s r Hall). }
  assert (Hgeo : passesGeometric s
                 = within r mean && (tolerance <? abs mean)%float).
  { unfold passesGeometric. rewrite Hzero, Hmean.
    rewrite (constant_quotients s r Hall).
    destruct Hv as [Hlen _].
    destruct (length s - 1) as [|n] eqn:Hn; [lia|].
    now rewrite isConstant_repeat. }
  assert (Hiff : type res = Some geometric <-> passesGeometric s = true).
  { subst res. rewrite (analyze_validated_type s Hv), Harith.
    destruct (passesGeometric s); [tauto|].
    destruct (truthy _); split; discriminate. }
  assert (Hres : type res = Some geometric ->
                 success res = Some true /\
                 prediction res = Some (lastOf s * mean)%float /\
                 parameters res = Some (GeometricParams mean (at_ s 0)) /\
                 confidence res = Some 1%float).
  { intros Hty. apply Hiff in Hty. subst res.
    destruct (analyze_validated s Hv)
      as [(H & _)|[(_ & _ & ->)|[(_ & H & _)|(_ & H & _)]]]; try congruence.
    unfold geometricSuccess. rewrite Hmean. repeat split. }
  split; [|split].
  - rewrite Hiff, Hgeo. apply andb_true_iff.
  - exact Hres.
  - intros Hshort Htol Hfin.
    destruct (short_constant_mean r (length s - 1)) as [Heq Hwithin];
      [destruct Hv; lia|exact Hfin|exact Htol|].
    fold mean in Heq.
    assert (Hty : type res = Some geometric).
    { apply Hiff. rewrite Hgeo, Heq, Hwithin, Htol. reflexivity. }
    split; [exact Heq|]. split; [exact Hty|].
    destruct (Hres Hty) as (_ & Hpred & _). now rewrite Heq in Hpred.
Qed.

Lemma geometric_detection_witness :
  let s := [2; 4; 8]%float in
  let res := returned (analyze (nums s)) in
  average (repeat 2%float (length s - 1)) = 2%float /\
  type res = Some geometric /\
  prediction res = Some (lastOf s * 2)%float.
Proof.
  assert (Hv : validated [2; 4; 8]%float).
  { split; [simpl; lia|]. repeat constructor. }
  assert (Hq : forall i, i < length [2; 4; 8]%float - 1 ->
                 quotient [2; 4; 8]%float i = 2%float).
  { intros i Hi. simpl in Hi.
    destruct i as [|[|i]]; [vm_compute; reflexivity ..|lia]. }
  destruct (geometric_detection [2; 4; 8]%float 2%float Hv
              eq_refl eq_refl Hq) as (_ & _ & Hshort).
  apply Hshort; [simpl; lia|vm_compute; reflexivity ..].
Defined.

(** C4 as stated fails in four places.  [[2, 2, 2]] has no zero and the
    constant ratio 1, yet it is classified arithmetic, the detector tried
    first.  [[1000, 100, 10, 1]] has the constant ratio [0.1] (as a
    binary64 number) and is classified geometric, but the mean of the
    three ratios is rounded to the next number above [0.1], so the
    prediction is not [s[last] * 0.1].  In [large], which is
    [[343, 49p, 7p^2, p^3]] for [p = 100004 * 2^30], all ratios are the
    same number [p / 7] rounded, the rounded mean differs from it by
    [2^-9], more than the tolerance, and the sequence is classified
    polynomial.  In [small] all ratios are the number next above [1e-4],
    the rounded mean is [1e-4] itself, which does not exceed the
    tolerance, and the sequence is classified polynomial. *)
Lemma geometric_claim_counterexamples :
  let flat := [2; 2; 2]%float in
  let tenth := [1000; 100; 10; 1]%float in
  let large := [0x1.57p+8; 0x1.2b159p+52; 0x1.04ca8af7p+96;
                0x1.c6cd4acf372p+139]%float in
  let small := [1; 0x1.a36e2eb1c432ep-14; 0x1.5798ee2308c3cp-27;
                0x1.19799812dea14p-40]%float in
  let r := returned (analyze (nums tenth)) in
  hasZero flat = false /\
  quotients flat = [1; 1]%float /\
  (tolerance <? abs 1)%float = true /\
  type (returned (analyze (nums flat))) = Some arithmetic /\
  hasZero tenth = false /\
  quotients tenth = [0.1; 0.1; 0.1]%float /\
  (tolerance <? abs 0.1)%float = true /\
  type r = Some geometric /\
  prediction r = Some 0.10000000000000002%float /\
  (lastOf tenth * 0.1)%float = 0.1%float /\
  (0.10000000000000002 =? 0.1)%float = false /\
  hasZero large = false /\
  quotients large = repeat 15339782481042.285%float 3 /\
  (tolerance <? abs 15339782481042.285)%float = true /\
  passesArithmetic large = false /\
  meanQuotient large = 15339782481042.287%float /\
  type (returned (analyze (nums large))) = Some polynomial /\
  hasZero small = false /\
  quotients small = repeat 0x1.a36e2eb1c432ep-14%float 3 /\
  (tolerance <? abs 0x1.a36e2eb1c432ep-14)%float = true /\
  passesArithmetic small = false /\
  meanQuotient small = tolerance /\
  type (returned (analyze (nums small))) = Some polynomial.
Proof. vm_compute. repeat split. Qed.

(* ================================================================= *)
(** ** Further properties of the engine *)

Lemma spread_nums s : map toNumber (spread (nums s)) = s.
Proof. rewrite spread_numbers. apply toNumber_Num. Qed.

(** X1.  Every result of [analyze] has one of five shapes, told by its
    [type]: a success carries a prediction, parameters of the matching
    kind and the confidence (1 for arithmetic and geometric, 0.9 for
    polynomial) and no error; a failure carries an error and none of the
    three; every result except the invalid one echoes the sequence. *)
Theorem analyze_result_shape input :
  let r := returned (analyze input) in
  let echoed := Result.sequence r = Some (map toNumber (spread input)) in
  let succeeded := success r = Some true /\ error r = None /\
                   exists p, prediction r = Some p in
  let failed := success r = Some false /\ prediction r = None /\
                parameters r = None /\ confidence r = None /\
                exists msg, error r = Some msg in
  match type r with
  | Some arithmetic =>
      succeeded /\ confidence r = Some 1%float /\ echoed /\
      exists d a, parameters r = Some (ArithmeticParams d a)
  | Some geometric =>
      succeeded /\ confidence r = Some 1%float /\ echoed /\
      exists q a, parameters r = Some (GeometricParams q a)
  | Some polynomial =>
      succeeded /\ confidence r = Some 0.9%float /\ echoed /\
      exists degree levels,
        parameters r = Some (PolynomialParams degree levels)
  | Some unknown => failed /\ echoed
  | Some invalid => failed /\ Result.sequence r = None
  | None => False
  end.
Proof.
  cbv zeta.
  destruct (input_cases input)
    as [Hbad|[(s & -> & Hv)|(elems & -> & Hsp)]].
  { destruct (analyze_malformed _ Hbad) as (msg & -> & _).
    cbn. repeat split. now exists msg. }
  2:{ rewrite spread_toNumber, (analyze_sparse elems Hsp).
      cbn. repeat split; eauto. }
  rewrite spread_nums.
  destruct (analyze_validated s Hv)
    as [(_ & ->)|[(_ & _ & ->)|[(Harith & _ & Hp & ->)|(_ & _ & _ & ->)]]].
  - cbn. repeat split; eauto.
  - cbn. repeat split; eauto.
  - destruct (detectPolynomial_after_arithmetic s Harith Hp)
      as (degree & _ & -> & _).
    cbn. repeat split; eauto.
  - cbn. repeat split; eauto.
Qed.

(** X2.  The detectors run in the fixed order arithmetic, geometric,
    polynomial, each at most once, and the run stops at the first one
    that accepts: the detectors entered are told by the [type] of the
    result, and none is entered on invalid input. *)
Theorem detectors_run_in_order input :
  detectorsRun (trace (analyze input)) =
    match type (returned (analyze input)) with
    | Some arithmetic => [Arithmetic]
    | Some geometric => [Arithmetic; Geometric]
    | Some polynomial | Some unknown => [Arithmetic; Geometric; Polynomial]
    | Some invalid | None => []
    end.
Proof.
  destruct (input_cases input)
    as [Hbad|[(s & -> & Hv)|(elems & -> & Hsp)]].
  { destruct (analyze_malformed _ Hbad) as (msg & -> & _). reflexivity. }
  2:{ rewrite (analyze_sparse elems Hsp).
      cbn [trace fst returned snd unknownResult type].
      change (detectorsRun (Run Arithmetic :: ?t))
        with (Arithmetic :: detectorsRun t).
      now rewrite detectorsRun_app, detectGeometric_detectors. }
  rewrite (analyze_validated_type s Hv), (analyze_validated_trace s Hv).
  change (detectorsRun (Run Arithmetic :: ?t))
    with (Arithmetic :: detectorsRun t).
  destruct (passesArithmetic s); [reflexivity|].
  rewrite detectorsRun_app, detectGeometric_detectors.
  destruct (passesGeometric s); [reflexivity|].
  destruct (truthy _); reflexivity.
Qed.

(** X3.  A geometric result is returned only for a validated sequence
    without a zero element that the arithmetic test rejected; its ratio
    is the mean of the consecutive ratios, every ratio is within the
    tolerance of it, its absolute value exceeds the tolerance, and the
    run performed exactly one division per adjacent pair. *)
Theorem geometric_result_guarantees input :
  type (returned (analyze input)) = Some geometric ->
  exists s,
    input = nums s /\ validated s /\
    hasZero s = false /\
    passesArithmetic s = false /\
    (forall i, i < length s - 1 ->
       within (quotient s i) (meanQuotient s) = true) /\
    (tolerance <? abs (meanQuotient s))%float = true /\
    parameters (returned (analyze input))
      = Some (GeometricParams (meanQuotient s) (at_ s 0)) /\
    prediction (returned (analyze input))
      = Some (lastOf s * meanQuotient s)%float /\
    trace (analyze input)
      = Run Arithmetic :: Run Geometric
        :: map (fun p => Divide (fst p) (snd p)) (adjacent s).
Proof.
  intros Hty.
  destruct (input_cases input)
    as [Hbad|[(s & -> & Hv)|(elems & -> & Hsp)]].
  { apply invalid_iff_malformed in Hbad. congruence. }
  2:{ rewrite (analyze_sparse elems Hsp) in Hty. discriminate. }
  exists s. split; [reflexivity|]. split; [exact Hv|].
  rewrite (analyze_validated_type s Hv) in Hty.
  rewrite (analyze_validated_trace s Hv).
  destruct (analyze_validated s Hv)
    as [(Ha & _)|[(Ha & Hg & ->)|[(Ha & Hg & _)|(Ha & Hg & _)]]];
    rewrite Ha in Hty |- *; try discriminate;
    rewrite Hg in Hty |- *; try (destruct (truthy _); discriminate).
  unfold passesGeometric in Hg.
  apply andb_prop in Hg as [Hg Hmean]. apply andb_prop in Hg as [Hzero Hall].
  apply negb_true_iff in Hzero.
  split; [exact Hzero|]. split; [reflexivity|].
  split; [now apply isConstant_quotients|]. split; [exact Hmean|].
  split; [reflexivity|]. split; [reflexivity|].
  rewrite detectGeometric_trace, Hzero, app_nil_r. reflexivity.
Qed.

Lemma geometric_result_guarantees_witness :
  exists s,
    nums [2; 4; 8]%float = nums s /\ validated s /\
    hasZero s = false /\
    passesArithmetic s = false /\
    (forall i, i < length s - 1 ->
       within (quotient s i) (meanQuotient s) = true) /\
    (tolerance <? abs (meanQuotient s))%float = true /\
    parameters (returned (analyze (nums [2; 4; 8]%float)))
      = Some (GeometricParams (meanQuotient s) (at_ s 0)) /\
    prediction (returned (analyze (nums [2; 4; 8]%float)))
      = Some (lastOf s * meanQuotient s)%float /\
    trace (analyze (nums [2; 4; 8]%float))
      = Run Arithmetic :: Run Geometric
        :: map (fun p => Divide (fst p) (snd p)) (adjacent s).
Proof.
  apply (geometric_result_guarantees (nums [2; 4; 8]%float)).
  vm_compute. reflexivity.
Defined.

Lemma detectPolynomial_needs_four s :
  truthy (isValid (returned (detectPolynomial s))) = true -> 4 <= length s.
Proof.
  rewrite detectPolynomial_returned.
  destruct (Nat.ltb_spec (length s) 4) as [_|Hlen]; [discriminate|].
  intros _. exact Hlen.
Qed.

(** X4.  A polynomial result is returned only for a sequence of at least
    4 values, and its degree is below the number of values (and at most
    4): sequences of 2 or 3 values are never polynomial. *)
Theorem polynomial_result_bounds input :
  type (returned (analyze input)) = Some polynomial ->
  exists degree,
    degreeOf (returned (analyze input)) = Some degree /\
    4 <= length (spread input) /\
    2 <= degree <= 4 /\
    degree < length (spread input).
Proof.
  intros Hty.
  destruct (input_cases input)
    as [Hbad|[(s & -> & Hv)|(elems & -> & Hsp)]].
  { apply invalid_iff_malformed in Hbad. congruence. }
  2:{ rewrite (analyze_sparse elems Hsp) in Hty. discriminate. }
  rewrite spread_numbers, length_map.
  destruct (analyze_validated s Hv)
    as [(_ & Hr)|[(_ & _ & Hr)|[(Harith & _ & Hp & Hr)|(_ & _ & _ & Hr)]]];
    rewrite Hr in Hty |- *; try discriminate.
  destruct (detectPolynomial_after_arithmetic s Harith Hp)
    as (degree & Hdeg & -> & Hlast & _ & _).
  exists degree. split; [reflexivity|].
  split; [now apply detectPolynomial_needs_four|]. split; [exact Hdeg|].
  apply andb_prop in Hlast as [Hpos _]. apply Nat.ltb_lt in Hpos.
  rewrite levelAt_length in Hpos. lia.
Qed.

Lemma polynomial_result_bounds_witness :
  exists degree,
    degreeOf (returned (analyze (nums [1; 4; 9; 16; 25]%float)))
      = Some degree /\
    4 <= length (spread (nums [1; 4; 9; 16; 25]%float)) /\
    2 <= degree <= 4 /\
    degree < length (spread (nums [1; 4; 9; 16; 25]%float)).
Proof.
  apply (polynomial_result_bounds (nums [1; 4; 9; 16; 25]%float)).
  vm_compute. reflexivity.
Defined.

(** The level loop finds a constant level when there is one within its
    reach. *)
Lemma levelLoop_finds fuel : forall level diffLevels currentLevel k,
  level + k < 5 ->
  k < fuel ->
  (forall j, j <= k -> 1 < length (levelAt currentLevel j)) ->
  constantLevel (levelAt currentLevel (S k)) = true ->
  exists levels degree,
    levelLoop fuel level diffLevels currentLevel = (levels, degree) /\
    level < degree <= level + S k.
Proof.
  induction fuel as [|fuel IH]; intros level acc cur k Hlevel Hfuel Hlen Hconst;
    [lia|].
  cbn [levelLoop].
  destruct (Nat.ltb_spec level 5) as [_|]; [|lia]. cbn [andb].
  pose proof (Hlen 0 ltac:(lia)) as Hcur. cbn [levelAt] in Hcur.
  destruct (Nat.ltb_spec 1 (length cur)) as [_|]; [|lia].
  rewrite differences_gaps. fold (constantLevel (gaps cur)).
  destruct (constantLevel (gaps cur)) eqn:Hfirst.
  - eexists _, _. split; [reflexivity|]. lia.
  - destruct k as [|k]; [cbn [levelAt] in Hconst; congruence|].
    destruct (IH (level + 1) (acc ++ [gaps cur]) (gaps cur) k)
      as (levels & degree & Hrun & Hdeg); try lia.
    + intros j Hj. apply (Hlen (S j)). lia.
    + exact Hconst.
    + exists levels, degree. split; [exact Hrun|]. lia.
Qed.

Lemma singleton_level (level : list float) :
  length level = 1 -> level = [at_ level 0].
Proof. destruct level as [|d [|e level]]; try discriminate. reflexivity. Qed.

(** X5.  A validated sequence of 4 or 5 values whose deepest difference
    (the single value of level [n - 1]) is finite is always classified:
    that one-value level passes the constancy test, so when the
    arithmetic and geometric detectors decline, the polynomial detector
    accepts and the unknown result is not returned. *)
Theorem four_or_five_values_always_classified s :
  validated s ->
  4 <= length s <= 5 ->
  is_finite (at_ (levelAt s (length s - 1)) 0) = true ->
  success (returned (analyze (nums s))) = Some true.
Proof.
  intros Hv Hlen Hfin.
  destruct (analyze_validated s Hv)
    as [(_ & ->)|[(_ & _ & ->)|[(_ & _ & Hp & ->)|(_ & _ & Hp & _)]]];
    try reflexivity.
  - destruct (detectPolynomial_type s) as [Hty|Hdecl];
      [|rewrite Hdecl in Hp; discriminate].
    revert Hty. rewrite detectPolynomial_returned.
    destruct (length s <? 4); [discriminate|].
    destruct (levelLoop 5 0 [s] s) as [levels degree].
    destruct (_ && _); [reflexivity|discriminate].
  - exfalso. revert Hp. rewrite detectPolynomial_returned.
    destruct (Nat.ltb_spec (length s) 4) as [|_]; [lia|].
    assert (Hconst : constantLevel (levelAt s (S (length s - 2))) = true).
    { replace (S (length s - 2)) with (length s - 1) by lia.
      assert (Hone : length (levelAt s (length s - 1)) = 1)
        by (rewrite levelAt_length; lia).
      rewrite (singleton_level _ Hone).
      set (d := at_ (levelAt s (length s - 1)) 0) in *.
      unfold constantLevel. cbn [length Nat.ltb Nat.leb andb isConstant forallb].
      fold (within d (average [d])).
      now rewrite finite_single_mean. }
    destruct (levelLoop_finds 5 0 [s] s (length s - 2))
      as (levels & degree & -> & Hdeg); try lia; try exact Hconst.
    { intros j Hj. rewrite levelAt_length. lia. }
    destruct (Nat.ltb_spec 0 degree) as [_|]; [|lia].
    destruct (Nat.leb_spec degree 4) as [_|]; [|lia].
    discriminate.
Qed.

Lemma four_or_five_values_always_classified_witness :
  success (returned (analyze (nums [1; 2; 4; 7; 13]%float))) = Some true.
Proof.
  apply (four_or_five_values_always_classified [1; 2; 4; 7; 13]%float).
  - split; [simpl; lia|]. repeat constructor.
  - simpl. lia.
  - vm_compute. reflexivity.
Defined.

(* ================================================================= *)
(** ** Further properties of multi-step prediction *)

(** Every value the loop pushes is the prediction of a successful
    analysis of the sequence extended by the values pushed before it. *)
Lemma predictLoop_steps remaining : forall predictions currentSequence,
  exists new,
    returned (predictLoop remaining predictions currentSequence)
      = (predictions ++ new, currentSequence ++ new) /\
    forall k, k < length new ->
      truthy (success (returned
        (analyze (Arr (currentSequence ++ firstn k new))))) = true /\
      nth k new Undefined
        = predictionOf (returned
            (analyze (Arr (currentSequence ++ firstn k new)))).
Proof.
  induction remaining as [|n IH]; intros ps cur.
  - exists []. rewrite !app_nil_r. split; [reflexivity|].
    intros k Hk. inversion Hk.
  - cbn [predictLoop]. rewrite returned_bind.
    destruct (truthy (success (returned (analyze (Arr cur))))) eqn:Hok;
      cbn [negb].
    + destruct (IH (ps ++ [predictionOf (returned (analyze (Arr cur)))])
                   (cur ++ [predictionOf (returned (analyze (Arr cur)))]))
        as (new & Heq & Hsteps).
      exists (predictionOf (returned (analyze (Arr cur))) :: new).
      rewrite Heq, <- !app_assoc. split; [reflexivity|].
      intros [|k] Hk.
      * cbn [firstn nth]. rewrite app_nil_r. split; [exact Hok|reflexivity].
      * cbn [firstn nth length] in *.
        replace (cur ++ predictionOf (returned (analyze (Arr cur)))
                        :: firstn k new)
          with ((cur ++ [predictionOf (returned (analyze (Arr cur)))])
                ++ firstn k new) by now rewrite <- app_assoc.
        apply Hsteps. lia.
    + exists []. rewrite !app_nil_r. split; [reflexivity|].
      intros k Hk. inversion Hk.
Qed.

(** X6.  Every prediction listed by [predictMultiple] is re-derived: the
    prediction at index [k] is the prediction of a successful [analyze]
    of the input extended by the [k] predictions before it. *)
Theorem predictions_are_stepwise input count ps k :
  predictions (returned (predictMultiple input count)) = Some ps ->
  k < length ps ->
  let step := returned (analyze (Arr (spread input ++ firstn k ps))) in
  truthy (success step) = true /\
  nth k ps Undefined = predictionOf step.
Proof.
  rewrite predictMultiple_returned. cbv zeta.
  destruct (truthy (success (returned (analyze input)))).
  - destruct (predictLoop_steps count [] (spread input))
      as (new & -> & Hsteps).
    cbn [predictions fst app]. intros Heq Hk. injection Heq as <-.
    now apply Hsteps.
  - rewrite analyze_no_predictions. discriminate.
Qed.

Lemma predictions_are_stepwise_witness :
  let ps := [Num 16; Num 32; Num 64]%float in
  let step := returned (analyze (Arr (spread (nums [2; 4; 8]%float)
                                        ++ firstn 1 ps))) in
  truthy (success step) = true /\
  nth 1 ps Undefined = predictionOf step.
Proof.
  apply (predictions_are_stepwise (nums [2; 4; 8]%float) 3
           [Num 16; Num 32; Num 64]%float 1).
  - vm_compute. reflexivity.
  - simpl. lia.
Defined.

(** A successful analysis comes from a validated sequence and carries a
    prediction. *)
Lemma analyze_success_prediction input :
  truthy (success (returned (analyze input))) = true ->
  exists s p,
    input = nums s /\ validated s /\
    prediction (returned (analyze input)) = Some p.
Proof.
  intros Hok.
  destruct (input_cases input)
    as [Hbad|[(s & -> & Hv)|(elems & -> & Hsp)]].
  { destruct (analyze_malformed _ Hbad) as (msg & Hrun & _).
    rewrite Hrun in Hok. discriminate. }
  2:{ rewrite (analyze_sparse elems Hsp) in Hok. discriminate. }
  exists s.
  destruct (analyze_validated s Hv)
    as [(_ & Hr)|[(_ & _ & Hr)|[(Harith & _ & Hp & Hr)|(_ & _ & _ & Hr)]]];
    rewrite Hr in Hok |- *.
  - eexists. split; [reflexivity|]. split; [exact Hv|reflexivity].
  - eexists. split; [reflexivity|]. split; [exact Hv|reflexivity].
  - destruct (detectPolynomial_after_arithmetic s Harith Hp)
      as (degree & _ & -> & _).
    eexists. split; [reflexivity|]. split; [exact Hv|reflexivity].
  - discriminate.
Qed.

(** X7.  The two operations agree on the next term: when [analyze]
    succeeds and at least one term is requested, the first prediction of
    [predictMultiple] is the prediction of [analyze]. *)
Theorem first_prediction_matches_analyze input count :
  truthy (success (returned (analyze input))) = true ->
  1 <= count ->
  exists p rest,
    prediction (returned (analyze input)) = Some p /\
    predictions (returned (predictMultiple input count))
      = Some (Num p :: rest).
Proof.
  intros Hok Hcount.
  destruct (analyze_success_prediction input Hok) as (s & p & -> & _ & Hp).
  exists p. rewrite predictMultiple_returned. cbv zeta. rewrite Hok.
  destruct count as [|n]; [lia|].
  rewrite spread_numbers. cbn [predictions fst predictLoop].
  fold (nums s). rewrite returned_bind, Hok. cbn [negb].
  destruct (predictLoop_steps n
              ([] ++ [predictionOf (returned (analyze (nums s)))])
              (map Num s ++ [predictionOf (returned (analyze (nums s)))]))
    as (new & -> & _).
  exists new. split; [exact Hp|].
  cbn [fst app]. unfold predictionOf. now rewrite Hp.
Qed.

Lemma first_prediction_matches_analyze_witness :
  exists p rest,
    prediction (returned (analyze (nums [3; 6; 9]%float))) = Some p /\
    predictions (returned (predictMultiple (nums [3; 6; 9]%float) 5))
      = Some (Num p :: rest).
Proof.
  apply (first_prediction_matches_analyze (nums [3; 6; 9]%float) 5).
  - vm_compute. reflexivity.
  - lia.
Defined.

Lemma arithmeticRuns_app xs ys :
  arithmeticRuns (xs ++ ys) = arithmeticRuns xs + arithmeticRuns ys.
Proof. unfold arithmeticRuns. now rewrite filter_app, length_app. Qed.

Lemma arithmeticRuns_divisions (pairs : list (float * float)) :
  arithmeticRuns (map (fun p => Divide (fst p) (snd p)) pairs) = 0.
Proof. induction pairs as [|p pairs IH]; [reflexivity|exact IH]. Qed.

Lemma detectGeometric_arithmeticRuns s :
  arithmeticRuns (trace (detectGeometric s)) = 0.
Proof.
  rewrite detectGeometric_trace.
  change (arithmeticRuns (Run Geometric :: ?t)) with (arithmeticRuns t).
  destruct (hasZero s); [reflexivity|apply arithmeticRuns_divisions].
Qed.

(** One call of [analyze] enters the arithmetic detector at most once. *)
Lemma analyze_arithmeticRuns input :
  arithmeticRuns (trace (analyze input)) <= 1.
Proof.
  destruct (input_cases input)
    as [Hbad|[(s & -> & Hv)|(elems & -> & Hsp)]].
  { destruct (analyze_malformed _ Hbad) as (msg & -> & _). cbn. lia. }
  2:{ rewrite (analyze_sparse elems Hsp). cbn [trace fst].
      change (arithmeticRuns (Run Arithmetic :: ?t))
        with (S (arithmeticRuns t)).
      rewrite arithmeticRuns_app, detectGeometric_arithmeticRuns.
      cbn. lia. }
  rewrite (analyze_validated_trace s Hv).
  change (arithmeticRuns (Run Arithmetic :: ?t)) with (S (arithmeticRuns t)).
  destruct (passesArithmetic s); [cbn; lia|].
  rewrite arithmeticRuns_app, detectGeometric_arithmeticRuns.
  destruct (passesGeometric s); cbn; lia.
Qed.

Lemma predictLoop_arithmeticRuns remaining : forall predictions currentSequence,
  arithmeticRuns (trace (predictLoop remaining predictions currentSequence))
  <= remaining.
Proof.
  induction remaining as [|n IH]; intros ps cur; [cbn; lia|].
  cbn [predictLoop]. rewrite trace_bind, arithmeticRuns_app.
  pose proof (analyze_arithmeticRuns (Arr cur)) as Hone.
  destruct (negb _).
  - replace (arithmeticRuns (trace (ret (ps, cur)))) with 0 by reflexivity.
    lia.
  - specialize (IH (ps ++ [predictionOf (returned (analyze (Arr cur)))])
                   (cur ++ [predictionOf (returned (analyze (Arr cur)))])).
    lia.
Qed.

(** X8.  [predictMultiple] does a bounded amount of work: it gets past
    validation into the detectors at most [count + 1] times (once for the
    first analysis, once per iteration). *)
Theorem predictMultiple_bounded_work input count :
  arithmeticRuns (trace (predictMultiple input count)) <= count + 1.
Proof.
  unfold predictMultiple. rewrite trace_bind, arithmeticRuns_app.
  pose proof (analyze_arithmeticRuns input) as Hone.
  destruct (negb _).
  - replace (arithmeticRuns (trace (ret (returned (analyze input)))))
      with 0 by reflexivity.
    lia.
  - rewrite trace_bind, arithmeticRuns_app.
    pose proof (predictLoop_arithmeticRuns count [] (spread input)) as Hloop.
    destruct (returned (predictLoop count [] (spread input))) as [ps cur].
    match goal with
    | |- context [arithmeticRuns (trace (ret ?x))] =>
        replace (arithmeticRuns (trace (ret x))) with 0 by reflexivity
    end.
    lia.
Qed.

(* ================================================================= *)
(** ** Forward extension of any table *)

(** X9.  For every non-empty table without an empty level,
    [predictFromDifferences] returns the cumulative sum of the last
    values: the last value of the deepest level, plus the last value of
    each level above it, added from the deepest level upward. *)
Theorem predictFromDifferences_is_cumulative diffLevels :
  diffLevels <> [] ->
  (forall k, k < length diffLevels -> nth k diffLevels [] <> []) ->
  predictFromDifferences diffLevels = appended diffLevels.
Proof.
  intros Hne Hlevels. now apply predictFromDifferences_appended.
Qed.

Lemma predictFromDifferences_is_cumulative_witness :
  predictFromDifferences [[1; 8; 27]; [7; 19]; [12]]%float
  = appended [[1; 8; 27]; [7; 19]; [12]]%float.
Proof.
  apply (predictFromDifferences_is_cumulative
           [[1; 8; 27]; [7; 19]; [12]]%float).
  - discriminate.
  - intros k Hk. simpl in Hk.
    destruct k as [|[|[|k]]]; [discriminate ..|lia].
Defined.

(* ================================================================= *)
(** ** The store of analyses *)

Lemma patternType_eqb_eq a b : patternType_eqb a b = true <-> a = b.
Proof. destruct a, b; cbn; split; intros H; try discriminate; reflexivity. Qed.

Lemma patternType_eqb_refl a : patternType_eqb a a = true.
Proof. now apply patternType_eqb_eq. Qed.

Lemma patternType_eqb_neq a b : patternType_eqb a b = false <-> a <> b.
Proof.
  split.
  - intros H ->. rewrite patternType_eqb_refl in H. discriminate.
  - intros H. destruct (patternType_eqb a b) eqn:E; [|reflexivity].
    apply patternType_eqb_eq in E. contradiction.
Qed.

Section MemoryStoreProperties.

Import MemoryStore.

(** *** Counting by type *)

Lemma lookupType_In ty byType :
  lookupType ty byType <> None <-> In ty (map fst byType).
Proof.
  induction byType as [|[key count] rest IH]; cbn.
  - split; [congruence|tauto].
  - destruct (patternType_eqb key ty) eqn:E.
    + apply patternType_eqb_eq in E. split; [now left|discriminate].
    + apply patternType_eqb_neq in E. rewrite IH. split; [now right|].
      intros [H|H]; [contradiction|exact H].
Qed.

Lemma countType_same ty byType :
  lookupType ty (countType ty byType) =
    Some (match lookupType ty byType with
          | Some count => count + 1
          | None => 1
          end).
Proof.
  induction byType as [|[key count] rest IH]; cbn.
  - now rewrite patternType_eqb_refl.
  - destruct (patternType_eqb key ty) eqn:E; cbn; rewrite E;
      [reflexivity|exact IH].
Qed.

Lemma countType_other ty other byType :
  ty <> other ->
  lookupType other (countType ty byType) = lookupType other byType.
Proof.
  intros Hne. induction byType as [|[key count] rest IH]; cbn.
  - apply patternType_eqb_neq in Hne. now rewrite Hne.
  - destruct (patternType_eqb key ty) eqn:E; cbn.
    + apply patternType_eqb_eq in E. subst key.
      apply patternType_eqb_neq in Hne. now rewrite Hne.
    + now rewrite IH.
Qed.

Lemma countType_keys ty byType :
  map fst (countType ty byType) =
    match lookupType ty byType with
    | Some _ => map fst byType
    | None => map fst byType ++ [ty]
    end.
Proof.
  induction byType as [|[key count] rest IH]; cbn; [reflexivity|].
  destruct (patternType_eqb key ty) eqn:E; cbn; [reflexivity|].
  rewrite IH. now destruct (lookupType ty rest).
Qed.

Lemma countType_NoDup ty byType :
  NoDup (map fst byType) -> NoDup (map fst (countType ty byType)).
Proof.
  intros Hnd. rewrite countType_keys.
  destruct (lookupType ty byType) eqn:E; [exact Hnd|].
  apply NoDup_app; [exact Hnd|repeat constructor; intros []|].
  intros key Hin [<-|[]].
  apply lookupType_In in Hin. congruence.
Qed.

Lemma countType_sum ty byType :
  list_sum (map snd (countType ty byType)) = S (list_sum (map snd byType)).
Proof.
  induction byType as [|[key count] rest IH]; [reflexivity|].
  cbn [countType]. destruct (patternType_eqb key ty).
  - cbn. lia.
  - change (list_sum (map snd ((key, count) :: countType ty rest)))
      with (count + list_sum (map snd (countType ty rest))).
    rewrite IH.
    change (list_sum (map snd ((key, count) :: rest)))
      with (count + list_sum (map snd rest)).
    lia.
Qed.

Lemma entriesOfType_app ty ms m :
  entriesOfType ty (ms ++ [m]) =
    entriesOfType ty ms + (if patternType_eqb (type m) ty then 1 else 0).
Proof.
  unfold entriesOfType. rewrite filter_app, length_app. cbn [filter].
  now destruct (patternType_eqb (type m) ty).
Qed.

(** The counts kept while the loop of [updateStats] walks the entries:
    after the entries [seen], every key is listed once with the number
    of entries of that type. *)
Lemma counting_invariant ms : forall seen byType,
  NoDup (map fst byType) ->
  list_sum (map snd byType) = length seen ->
  (forall ty, lookupType ty byType =
     if 0 <? entriesOfType ty seen then Some (entriesOfType ty seen)
     else None) ->
  let final := fold_left (fun b m => countType (type m) b) ms byType in
  NoDup (map fst final) /\
  list_sum (map snd final) = length (seen ++ ms) /\
  (forall ty, lookupType ty final =
     if 0 <? entriesOfType ty (seen ++ ms)
     then Some (entriesOfType ty (seen ++ ms)) else None).
Proof.
  induction ms as [|m ms IH]; intros seen byType Hnd Hsum Hcount; cbn zeta.
  - rewrite app_nil_r. cbn [fold_left]. now repeat split.
  - cbn [fold_left].
    replace (seen ++ m :: ms) with ((seen ++ [m]) ++ ms)
      by now rewrite <- app_assoc.
    apply IH.
    + now apply countType_NoDup.
    + rewrite countType_sum, Hsum, length_app. cbn. lia.
    + intros ty. rewrite entriesOfType_app.
      destruct (patternType_eqb (type m) ty) eqn:E.
      * apply patternType_eqb_eq in E. subst ty.
        rewrite countType_same, Hcount.
        destruct (Nat.ltb_spec 0 (entriesOfType (type m) seen)) as [Hpos|Hz].
        -- destruct (Nat.ltb_spec 0 (entriesOfType (type m) seen + 1));
             [reflexivity|lia].
        -- replace (entriesOfType (type m) seen) with 0 by lia. reflexivity.
      * apply patternType_eqb_neq in E.
        rewrite countType_other by exact E. rewrite Hcount, Nat.add_0_r.
        reflexivity.
Qed.

Lemma fold_tally_byType ms : forall acc,
  fst (fst (fold_left tally ms acc))
  = fold_left (fun b m => countType (type m) b) ms (fst (fst acc)).
Proof.
  induction ms as [|m ms IH]; intros [[b c] k]; [reflexivity|].
  cbn [fold_left]. rewrite IH. reflexivity.
Qed.


Lemma updateStats_stats this :
  stats (updateStats this) =
    let n := length (memories this) in
    let final := fold_left tally (memories this) ([], 0%float, 0) in
    mkStats n (fst (fst final))
      (if 0 <? n then (snd (fst final) / ofLength n)%float else 0%float)
      (if 0 <? n then (ofLength (snd final) / ofLength n)%float
       else 0%float).
Proof.
  unfold updateStats. cbv zeta.
  destruct (fold_left tally (memories this) ([], 0%float, 0)) as [[b c] k].
  reflexivity.
Qed.

Lemma updateStats_memories this : memories (updateStats this) = memories this.
Proof.
  unfold updateStats.
  destruct (fold_left tally (memories this) ([], 0%float, 0)) as [[b c] k].
  reflexivity.
Qed.

(** X10.  After every [store], whatever the store held before, the
    statistics agree with the entries: [totalProcessed] is the number of
    entries, [byType] lists each type that occurs exactly once, with the
    number of entries [getByType] returns for it, and lists no type that
    does not occur; the counts add up to [totalProcessed]. *)
Theorem store_keeps_statistics_consistent newId now r this :
  let this' := fst (store newId now r this) in
  let st := getStats this' in
  totalProcessed st = length (getAll this') /\
  NoDup (map fst (byType st)) /\
  list_sum (map snd (byType st)) = totalProcessed st /\
  forall ty,
    lookupType ty (byType st) =
      if 0 <? length (getByType ty this')
      then Some (length (getByType ty this')) else None.
Proof.
  cbv zeta. unfold store, getStats, getAll, getByType. cbn [fst].
  rewrite updateStats_stats, updateStats_memories. cbn [memories].
  cbv zeta. cbn [totalProcessed byType].
  rewrite fold_tally_byType. cbn [fst].
  split; [reflexivity|].
  apply (counting_invariant _ [] []).
  - constructor.
  - reflexivity.
  - intros ty. reflexivity.
Qed.


End MemoryStoreProperties.

(** The properties of a result of [analyze] that [store] reads. *)
Lemma analyze_fields input :
  exists ty,
    Result.type (returned (analyze input)) = Some ty /\
    Result.success (returned (analyze input)) =
      Some (match ty with
            | arithmetic | geometric | polynomial => true
            | unknown | invalid => false
            end) /\
    Result.sequence (returned (analyze input)) =
      match ty with
      | invalid => None
      | _ => Some (map toNumber (spread input))
      end.
Proof.
  destruct (input_cases input)
    as [Hbad|[(s & -> & Hv)|(elems & -> & Hsp)]].
  { destruct (analyze_malformed _ Hbad) as (msg & -> & _).
    exists invalid. repeat split. }
  2:{ rewrite spread_toNumber, (analyze_sparse elems Hsp).
      exists unknown. repeat split. }
  rewrite spread_nums.
  destruct (analyze_validated s Hv)
    as [(_ & ->)|[(_ & _ & ->)|[(Harith & _ & Hp & ->)|(_ & _ & _ & ->)]]].
  - exists arithmetic. repeat split.
  - exists geometric. repeat split.
  - destruct (detectPolynomial_after_arithmetic s Harith Hp)
      as (degree & _ & -> & _).
    exists polynomial. repeat split.
  - exists unknown. repeat split.
Qed.

Section MemoryStoreUse.

Import MemoryStore.

(** X12.  Storing a result of [analyze], as the server and the command
    line do, appends one entry that never falls back on the defaults of
    [type] and [success]: the entry has the type of the result, its
    [success] flag is true exactly for the three pattern types, and its
    sequence is the analysed sequence, or empty for invalid input. *)
Theorem stored_analysis_entry newId now input this :
  let r := returned (analyze input) in
  let this' := fst (store newId now r this) in
  let entry := snd (store newId now r this) in
  getAll this' = getAll this ++ [entry] /\
  result entry = r /\
  Result.type r = Some (type entry) /\
  success entry =
    match type entry with
    | arithmetic | geometric | polynomial => true
    | unknown | invalid => false
    end /\
  sequence entry =
    match type entry with
    | invalid => []
    | _ => map toNumber (spread input)
    end.
Proof.
  cbv zeta. unfold store, getAll. cbn [fst snd].
  rewrite updateStats_memories. cbn [memories result type success sequence].
  destruct (analyze_fields input) as (ty & -> & -> & ->).
  repeat split; destruct ty; reflexivity.
Qed.

(** *** [getRecent] *)

(** X13.  For a positive count, [getRecent] returns the [count] newest
    entries, newest first (all of them when the store holds fewer). *)
Theorem getRecent_newest_first count this :
  (0 < count)%Z ->
  getRecent count this = firstn (Z.to_nat count) (rev (getAll this)).
Proof.
  intros Hpos. unfold getRecent, getAll, sliceFrom.
  set (ms := memories this).
  destruct (Z.ltb_spec (- count) 0) as [_|]; [|lia].
  destruct (Z.le_gt_cases count (Z.of_nat (length ms))) as [Hle|Hgt].
  - rewrite firstn_rev. do 2 f_equal. lia.
  - replace (Z.to_nat (Z.max (Z.of_nat (length ms) + - count) 0))
      with 0 by lia.
    cbn [skipn]. rewrite firstn_all2; [reflexivity|].
    rewrite length_rev. lia.
Qed.

Lemma getRecent_newest_first_witness :
  getRecent 2 threeAnalyses
    = firstn (Z.to_nat 2) (rev (getAll threeAnalyses)) /\
  map MemoryStore.id (getAll threeAnalyses) = ["mem_1"; "mem_2"; "mem_3"]%string /\
  map MemoryStore.id (getRecent 2 threeAnalyses) = ["mem_3"; "mem_2"]%string.
Proof.
  split; [apply (getRecent_newest_first 2 threeAnalyses); lia|].
  vm_compute. split; reflexivity.
Defined.

(** X14.  For a count of zero or below, [getRecent] returns every entry
    except the [-count] oldest, newest first: [slice(-count)] then cuts
    from the front, not from the back.  The result holds the number of
    entries of the store less [-count] (none when the store holds no
    more than [-count] entries); for count 0 it is every entry. *)
Theorem getRecent_nonpositive count this :
  (count <= 0)%Z ->
  getRecent count this = rev (skipn (Z.to_nat (- count)) (getAll this)) /\
  length (getRecent count this)
    = length (getAll this) - Z.to_nat (- count) /\
  getRecent 0 this = rev (getAll this).
Proof.
  intros Hle.
  assert (Heq : getRecent count this
                = rev (skipn (Z.to_nat (- count)) (getAll this))).
  { unfold getRecent, getAll, sliceFrom. set (ms := memories this).
    destruct (Z.ltb_spec (- count) 0) as [|_]; [lia|]. f_equal.
    destruct (Z.le_gt_cases (- count) (Z.of_nat (length ms))) as [Hin|Hout].
    + now rewrite Z.min_l by lia.
    + rewrite Z.min_r by lia. rewrite Nat2Z.id.
      rewrite !skipn_all2; [reflexivity|lia|lia]. }
  split; [exact Heq|]. split.
  - rewrite Heq, length_rev, length_skipn. reflexivity.
  - unfold getRecent, getAll, sliceFrom. cbn [Z.opp Z.ltb Z.compare].
    rewrite Z.min_l by lia. reflexivity.
Qed.

Lemma getRecent_nonpositive_witness :
  (getRecent (-1) threeAnalyses
     = rev (skipn (Z.to_nat (- -1)) (getAll threeAnalyses)) /\
   length (getRecent (-1) threeAnalyses)
     = length (getAll threeAnalyses) - Z.to_nat (- -1) /\
   getRecent 0 threeAnalyses = rev (getAll threeAnalyses)) /\
  map MemoryStore.id (getRecent (-1) threeAnalyses) = ["mem_3"; "mem_2"]%string /\
  map MemoryStore.id (getRecent 0 threeAnalyses) = ["mem_3"; "mem_2"; "mem_1"]%string.
Proof.
  split; [apply (getRecent_nonpositive (-1) threeAnalyses); lia|].
  vm_compute. split; reflexivity.
Defined.

(** *** [identifyTrends] *)

Lemma trendLoop_app xs : forall ys trends currentType count,
  trendLoop (xs ++ ys) trends currentType count =
    let '(trends', currentType', count') :=
      trendLoop xs trends currentType count in
    trendLoop ys trends' currentType' count'.
Proof.
  induction xs as [|x xs IH]; intros ys trends cur count; [reflexivity|].
  cbn [app trendLoop]. destruct (String.eqb x cur); apply IH.
Qed.

Lemma trendLoop_repeat ty n : forall trends count,
  trendLoop (repeat ty n) trends ty count = (trends, ty, count + n).
Proof.
  induction n as [|n IH]; intros trends count; cbn [repeat trendLoop].
  - now rewrite Nat.add_0_r.
  - rewrite String.eqb_refl, IH. f_equal. lia.
Qed.

(** The loop only adds trends, and every trend it adds accounts for at
    least three of the types it has read. *)
Lemma trendLoop_grows types : forall trends currentType count,
  exists more currentType' count',
    trendLoop types trends currentType count
      = (trends ++ more, currentType', count') /\
    3 * length more + count' <= count + length types.
Proof.
  induction types as [|ty types IH]; intros trends cur count.
  - exists [], cur, count. rewrite app_nil_r. cbn. split; [reflexivity|lia].
  - cbn [trendLoop]. destruct (String.eqb ty cur).
    + destruct (IH trends cur (count + 1)) as (more & c' & k' & -> & Hb).
      exists more, c', k'. split; [reflexivity|]. cbn [length]. lia.
    + destruct (Nat.leb_spec 3 count) as [Hrun|Hshort].
      * destruct (IH (trends ++ [streak count cur]) ty 1)
          as (more & c' & k' & -> & Hb).
        exists (streak count cur :: more), c', k'.
        rewrite <- app_assoc. split; [reflexivity|]. cbn [length]. lia.
      * destruct (IH trends ty 1) as (more & c' & k' & -> & Hb).
        exists more, c', k'. split; [reflexivity|]. cbn [length]. lia.
Qed.

(** After reading a type, the loop's current type is that type. *)
Lemma trendLoop_last xs other : forall trends currentType count,
  exists trends' count',
    trendLoop (xs ++ [other]) trends currentType count
      = (trends', other, count').
Proof.
  intros trends cur count. rewrite trendLoop_app.
  destruct (trendLoop xs trends cur count) as [[t1 c1] k1].
  cbn [trendLoop]. destruct (String.eqb other c1) eqn:E.
  - apply String.eqb_eq in E. subst c1. eexists _, _. reflexivity.
  - eexists _, _. reflexivity.
Qed.

(** X15.  [identifyTrends] never reports more than one trend per three
    types, and reports none for fewer than three types. *)
Theorem identifyTrends_bound types :
  3 * length (identifyTrends types) <= length types.
Proof.
  unfold identifyTrends.
  destruct (Nat.ltb_spec (length types) 3) as [|Hlen]; [cbn; lia|].
  destruct types as [|first rest]; [cbn in Hlen; lia|]. cbn [hd tl].
  destruct (trendLoop_grows rest [] first 1) as (more & c' & k' & -> & Hb).
  cbn [app length] in *.
  destruct (Nat.leb_spec 3 k'); [rewrite length_app; cbn [length]|]; lia.
Qed.

(** X16.  For at least three equal types, [identifyTrends] reports
    exactly one trend, the current streak over the whole list. *)
Theorem identifyTrends_uniform ty n :
  3 <= n ->
  identifyTrends (repeat ty n) = [currentStreak n ty].
Proof.
  intros Hn. unfold identifyTrends. rewrite repeat_length.
  destruct (Nat.ltb_spec n 3) as [|_]; [lia|].
  destruct n as [|n]; [lia|]. cbn [repeat hd tl].
  rewrite trendLoop_repeat.
  destruct (Nat.leb_spec 3 (1 + n)) as [_|]; [reflexivity|lia].
Qed.

Lemma identifyTrends_uniform_witness :
  identifyTrends (repeat "arithmetic"%string 4)
  = [currentStreak 4 "arithmetic"%string].
Proof. apply (identifyTrends_uniform "arithmetic"%string 4). lia. Defined.

(** X17.  The two labels follow the position in the list: a run of at
    least three equal types at the start of the list, followed by another
    type, is reported first, as a past streak; a run of at least three
    equal types at the end of the list, preceded by another type, is
    reported last, as the current streak. *)
Theorem identifyTrends_labels ty other n before after :
  3 <= n ->
  other <> ty ->
  (exists more,
     identifyTrends (repeat ty n ++ other :: after)
       = streak n ty :: more) /\
  (exists more,
     identifyTrends (before ++ other :: repeat ty n)
       = more ++ [currentStreak n ty]).
Proof.
  intros Hn Hne. apply String.eqb_neq in Hne. split.
  - unfold identifyTrends. rewrite length_app, repeat_length.
    destruct (Nat.ltb_spec (n + length (other :: after)) 3) as [|_]; [lia|].
    destruct n as [|n]; [lia|]. cbn [repeat app hd tl].
    rewrite trendLoop_app, trendLoop_repeat. cbn [trendLoop]. rewrite Hne.
    destruct (Nat.leb_spec 3 (1 + n)) as [_|]; [|lia].
    destruct (trendLoop_grows after ([] ++ [streak (1 + n) ty]) other 1)
      as (more & c' & k' & -> & _).
    cbn [app]. destruct (3 <=? k'); eexists; reflexivity.
  - unfold identifyTrends. rewrite length_app. cbn [length].
    rewrite repeat_length.
    destruct (Nat.ltb_spec (length before + S n) 3) as [|_]; [lia|].
    destruct n as [|n]; [lia|].
    destruct before as [|first before]; cbn [app hd tl].
    + cbn [repeat trendLoop].
      rewrite String.eqb_sym, Hne, trendLoop_repeat.
      destruct (Nat.leb_spec 3 (1 + n)) as [_|]; [|lia].
      exists []. reflexivity.
    + replace (before ++ other :: repeat ty (S n))
        with ((before ++ [other]) ++ repeat ty (S n))
        by now rewrite <- app_assoc.
      rewrite trendLoop_app.
      destruct (trendLoop_last before other [] first 1)
        as (trends & count & ->).
      cbn [repeat trendLoop].
      rewrite String.eqb_sym, Hne, trendLoop_repeat.
      destruct (Nat.leb_spec 3 (1 + n)) as [_|]; [|lia].
      eexists. reflexivity.
Qed.

Lemma identifyTrends_labels_witness :
  (exists more,
     identifyTrends (repeat "geometric"%string 3
                     ++ "unknown"%string :: ["invalid"%string])
       = streak 3 "geometric"%string :: more) /\
  (exists more,
     identifyTrends (["invalid"%string]
                     ++ "unknown"%string :: repeat "geometric"%string 3)
       = more ++ [currentStreak 3 "geometric"%string]).
Proof.
  apply (identifyTrends_labels "geometric"%string "unknown"%string 3
           ["invalid"%string] ["invalid"%string]).
  - lia.
  - discriminate.
Defined.

End MemoryStoreUse.

(* ================================================================= *)
(** ** Constant sequences *)

Section Binary64Lengths.

Open Scope Z_scope.

Lemma digits2_size p : digits2_pos p = Pos.size p.
Proof. induction p; cbn; now rewrite ?IHp. Qed.

Lemma digits2_small p : Z.pos p < 2 ^ 53 -> Z.pos (digits2_pos p) <= 53.
Proof.
  intros Hp. rewrite digits2_size.
  pose proof (Pos.size_le p) as Hle.
  apply Pos2Z.pos_le_pos in Hle. rewrite Pos2Z.inj_pow in Hle.
  assert (H : 2 ^ Z.pos (Pos.size p) < 2 ^ 54).
  { change (2 ^ 54) with 18014398509481984.
    change (2 ^ 53) with 9007199254740992 in Hp.
    change (2 * 1) with 2 in Hle. lia. }
  apply Z.pow_lt_mono_r_iff in H; lia.
Qed.

Lemma digits2_shift p k :
  Z.pos (digits2_pos (Pos.iter xO p k)) = Z.pos (digits2_pos p) + Z.pos k.
Proof.
  induction k using Pos.peano_ind.
  - cbn. lia.
  - rewrite Pos.iter_succ. cbn [digits2_pos]. lia.
Qed.

(** A length from 1 to 2^53 - 1 converts to a positive finite number. *)
Lemma ofLength_finite n :
  (0 < n)%nat -> Z.of_nat n < 2 ^ 53 ->
  exists m e, Prim2SF (ofLength n) = S754_finite false m e.
Proof.
  intros Hpos Hsmall. unfold ofLength.
  rewrite of_uint63_spec, of_Z_spec.
  rewrite Z.mod_small
    by (change wB with (2 ^ 63); split; [lia|];
        apply Z.lt_trans with (2 ^ 53); [exact Hsmall|reflexivity]).
  destruct (Z.of_nat n) as [|p|p] eqn:Hn; try lia.
  pose proof (digits2_small p Hsmall) as Hd.
  unfold binary_normalize, binary_round, fexp, emin, prec, emax.
  set (d := Z.pos (digits2_pos p)) in *.
  rewrite Z.max_l by lia.
  unfold shl_align.
  destruct (d + 0 - 53 - 0) as [|k|k] eqn:Hk; try lia.
  - unfold binary_round_aux, shr_fexp, fexp, emin.
    cbn [Zdigits2 shr_record_of_loc]. fold d.
    replace (Z.max (d + 0 - 53) (3 - 1024 - 53) - 0) with 0 by lia.
    cbn [shr shr_m loc_of_shr_record round_nearest_even Zdigits2
         shr_record_of_loc].
    fold d. replace (Z.max (d + 0 - 53) (3 - 1024 - 53) - 0) with 0 by lia.
    cbn [shr shr_m]. eexists _, _. reflexivity.
  - unfold binary_round_aux, shr_fexp, fexp, emin.
    cbn [Zdigits2 shr_record_of_loc].
    rewrite digits2_shift. fold d.
    replace (Z.max (d + Z.pos k + (d + 0 - 53) - 53) (3 - 1024 - 53)
             - (d + 0 - 53)) with 0 by lia.
    cbn [shr shr_m loc_of_shr_record round_nearest_even Zdigits2
         shr_record_of_loc].
    rewrite digits2_shift. fold d.
    replace (Z.max (d + Z.pos k + (d + 0 - 53) - 53) (3 - 1024 - 53)
             - (d + 0 - 53)) with 0 by lia.
    cbn [shr shr_m].
    destruct (Z.leb_spec (d + 0 - 53) (1024 - 53)); [|lia].
    eexists _, _. reflexivity.
Qed.

(** Zero divided by such a length is zero. *)
Lemma zero_div_length n :
  (0 < n)%nat -> Z.of_nat n < 2 ^ 53 -> (0 / ofLength n)%float = 0%float.
Proof.
  intros Hpos Hsmall.
  destruct (ofLength_finite n Hpos Hsmall) as (m & e & Hn).
  apply Prim2SF_inj. rewrite FloatAxioms.div_spec, Hn. reflexivity.
Qed.

(** A finite number minus itself is zero. *)
Lemma finite_sub_diag c : is_finite c = true -> (c - c)%float = 0%float.
Proof.
  intros Hfin. apply Prim2SF_inj. rewrite FloatAxioms.sub_spec.
  unfold SF64sub.
  destruct (finite_cases c Hfin) as [(s & ->)|(s & m & e & -> & _)].
  - destruct s; reflexivity.
  - now rewrite SFsub_diag.
Qed.

Lemma finite_not_nan c : is_finite c = true -> is_nan c = false.
Proof.
  unfold is_finite. intros H. apply negb_true_iff in H.
  now apply orb_false_iff in H.
Qed.

End Binary64Lengths.

Lemma sum_zeros k : sum (repeat 0%float k) = 0%float.
Proof.
  unfold sum. induction k as [|k IH]; [reflexivity|].
  cbn [repeat fold_left]. exact IH.
Qed.

Lemma gaps_constant c n :
  is_finite c = true -> gaps (repeat c n) = repeat 0%float (n - 1).
Proof.
  intros Hfin. unfold gaps. rewrite repeat_length.
  transitivity (map (fun _ : nat => 0%float) (seq 0 (n - 1))).
  - apply map_ext_in. intros i Hi. apply in_seq in Hi.
    unfold gap, at_. rewrite !nth_repeat_lt by lia.
    now apply finite_sub_diag.
  - now rewrite map_const, length_seq.
Qed.

(** X18.  A sequence that repeats one finite value (2 to 2^53 times) is
    classified arithmetic, before the geometric and polynomial detectors
    are tried, with difference exactly 0; the prediction is that value
    plus 0. *)
Theorem constant_sequence_is_arithmetic c n :
  is_finite c = true ->
  2 <= n ->
  (Z.of_nat n <= 2 ^ 53)%Z ->
  let run := analyze (nums (repeat c n)) in
  type (returned run) = Some arithmetic /\
  parameters (returned run) = Some (ArithmeticParams 0%float c) /\
  prediction (returned run) = Some (c + 0)%float /\
  trace run = [Run Arithmetic].
Proof.
  intros Hfin Hn Hmax run. subst run.
  assert (Hv : validated (repeat c n)).
  { split; [now rewrite repeat_length|].
    apply Forall_forall. intros x Hx. apply repeat_spec in Hx. subst x.
    now apply finite_not_nan. }
  assert (Hmean : meanGap (repeat c n) = 0%float).
  { unfold meanGap, average. rewrite gaps_constant by exact Hfin.
    rewrite sum_zeros, repeat_length. apply zero_div_length; lia. }
  assert (Hpass : passesArithmetic (repeat c n) = true).
  { unfold passesArithmetic. rewrite Hmean, gaps_constant by exact Hfin.
    unfold isConstant. apply forallb_forall. intros d Hd.
    apply repeat_spec in Hd. subst d. reflexivity. }
  rewrite (analyze_validated_trace _ Hv), Hpass.
  destruct (analyze_validated _ Hv)
    as [(_ & ->)|[(H & _)|[(H & _)|(H & _)]]]; try congruence.
  unfold arithmeticSuccess. cbn [detected type parameters prediction].
  rewrite Hmean. unfold lastOf, at_. rewrite repeat_length.
  rewrite !nth_repeat_lt by lia. repeat split.
Qed.

Lemma constant_sequence_is_arithmetic_witness :
  let run := analyze (nums (repeat 5%float 4)) in
  type (returned run) = Some arithmetic /\
  parameters (returned run) = Some (ArithmeticParams 0%float 5%float) /\
  prediction (returned run) = Some (5 + 0)%float /\
  trace run = [Run Arithmetic].
Proof.
  apply (constant_sequence_is_arithmetic 5%float 4).
  - vm_compute. reflexivity.
  - lia.
  - vm_compute. discriminate.
Defined.

(* ================================================================= *)
(** ** Two values *)

(** The mean of a single finite value is the value itself, added to the
    initial 0 of the sum: the division by the length 1 is exact. *)
Lemma single_mean d :
  is_finite d = true -> average [d] = (0 + d)%float.
Proof.
  intros Hfin. unfold average, sum. cbn [fold_left length].
  change (ofLength 1) with 1%float.
  apply Prim2SF_inj.
  rewrite FloatAxioms.div_spec, FloatAxioms.add_spec.
  change (Prim2SF 0) with (S754_zero false).
  change (Prim2SF 1) with oneSF.
  unfold SF64div, SF64add.
  destruct (finite_cases d Hfin) as [(s & ->)|(s & m & e & -> & Hb)].
  - destruct s; reflexivity.
  - cbn [SFadd]. now apply SFdiv_one.
Qed.

(** X19.  Two values are extended linearly whenever their difference
    [d = b - a] is finite: the result is arithmetic, its difference is
    [0 + d] (which is [d], with [-0] turned into [0]) without any
    rounding by the mean, and the prediction is [b + (0 + d)]. *)
Theorem two_values_extend_linearly a b :
  is_nan a = false ->
  is_nan b = false ->
  is_finite (b - a) = true ->
  let r := returned (analyze (nums [a; b])) in
  type r = Some arithmetic /\
  parameters r = Some (ArithmeticParams (0 + (b - a))%float a) /\
  prediction r = Some (b + (0 + (b - a)))%float.
Proof.
  intros Ha Hb Hfin r. subst r.
  assert (Hv : validated [a; b]).
  { split; [cbn; lia|]. repeat constructor; assumption. }
  assert (Hmean : meanGap [a; b] = (0 + (b - a))%float).
  { unfold meanGap. change (gaps [a; b]) with [(b - a)%float].
    now apply single_mean. }
  assert (Hpass : passesArithmetic [a; b] = true).
  { unfold passesArithmetic, meanGap.
    change (gaps [a; b]) with [(b - a)%float].
    unfold isConstant. cbn [forallb].
    fold (within (b - a) (average [(b - a)%float])).
    now rewrite finite_single_mean. }
  destruct (analyze_validated _ Hv)
    as [(_ & ->)|[(H & _)|[(H & _)|(H & _)]]]; try congruence.
  unfold arithmeticSuccess. cbn [detected type parameters prediction].
  rewrite Hmean. repeat split.
Qed.

Lemma two_values_extend_linearly_witness :
  let r := returned (analyze (nums [1; 3]%float)) in
  type r = Some arithmetic /\
  parameters r = Some (ArithmeticParams (0 + (3 - 1))%float 1%float) /\
  prediction r = Some (3 + (0 + (3 - 1)))%float.
Proof.
  apply (two_values_extend_linearly 1%float 3%float);
    vm_compute; reflexivity.
Defined.
